(** * aviene-core: request context, exception taxonomy and the emptiness guard

    A shallow embedding of
      - [packages/framework/guards/src/guards/is-empty.guard.ts]  (module [Guard]),
      - the request context base class, [AppRequestContext] and
        [RequestContextService]                                    (module [Context]),
      - [packages/framework/exceptions/src/exception.base.ts] and the
        concrete exception kinds                                   (module [Exceptions]),
      - the dynamic extent of [AsyncLocalStorage.run] on a cooperative
        event loop                                                 (module [Async]),
    followed by what is proved of each ([GuardFacts], [ContextFacts],
    [ExceptionFacts], [AsyncFacts]).

    Objects that have an identity and can be mutated or shared (contexts,
    errors) live in a heap and are referred to by address; values that the
    code only inspects structurally (the argument of [isEmpty]) are trees. *)

From Stdlib Require Import PrimFloat ZArith NArith Lia.
From stdpp Require Import base tactics option list strings pretty.

Set Default Proof Using "Type".
#[local] Set Warnings "-register-all,-inexact-float".

(* ===================================================================== *)
(** * The emptiness guard *)
(* ===================================================================== *)

Module Guard.

(** A JavaScript string is a sequence of UTF-16 code units. *)
Definition code_unit := N.
Definition jsstring := list code_unit.

(** Code units of a literal written in ASCII. *)
Definition js (s : string) : jsstring :=
  map Ascii.N_of_ascii (String.list_ascii_of_string s).

(** The values [isEmpty] can receive ([value: unknown]).  An array lists its
    slots, [None] being a hole of a sparse array; an object that is neither
    a [Date] nor an array is given by its own enumerable string-keyed
    properties, in [Object.keys] order. *)
Inductive JsValue : Type :=
| VUndefined
| VNull
| VBoolean (b : bool)
| VNumber (x : float)
| VBigInt (z : Z)
| VString (s : jsstring)
| VSymbol (description : jsstring)
| VFunction
| VDate (time : float)
| VArray (elems : list (option JsValue))
| VObject (props : list (jsstring * JsValue)).

(** Induction over values that reaches the elements of arrays and the
    property values of objects. *)
Section JsValue_induction.
Variable P : JsValue -> Prop.
Hypothesis Hundefined : P VUndefined.
Hypothesis Hnull : P VNull.
Hypothesis Hboolean : forall b, P (VBoolean b).
Hypothesis Hnumber : forall x, P (VNumber x).
Hypothesis Hbigint : forall z, P (VBigInt z).
Hypothesis Hstring : forall s, P (VString s).
Hypothesis Hsymbol : forall d, P (VSymbol d).
Hypothesis Hfunction : P VFunction.
Hypothesis Hdate : forall t, P (VDate t).
Let present (e : option JsValue) : Prop :=
  match e with Some x => P x | None => True end.
Hypothesis Harray : forall elems, Forall present elems -> P (VArray elems).
Hypothesis Hobject : forall props,
  Forall (fun kv => P (snd kv)) props -> P (VObject props).

Fixpoint JsValue_nested_ind (v : JsValue) : P v :=
  match v with
  | VUndefined => Hundefined
  | VNull => Hnull
  | VBoolean b => Hboolean b
  | VNumber x => Hnumber x
  | VBigInt z => Hbigint z
  | VString s => Hstring s
  | VSymbol d => Hsymbol d
  | VFunction => Hfunction
  | VDate t => Hdate t
  | VArray elems =>
      Harray elems
        ((fix slots (l : list (option JsValue)) : Forall present l :=
            match l with
            | [] => @List.Forall_nil _ _
            | e :: t =>
                @List.Forall_cons _ _ e t
                  (match e return present e with
                   | Some y => JsValue_nested_ind y
                   | None => I
                   end)
                  (slots t)
            end) elems)
  | VObject props =>
      Hobject props
        ((fix fields (l : list (jsstring * JsValue))
            : Forall (fun kv => P (snd kv)) l :=
            match l with
            | [] => @List.Forall_nil _ _
            | kv :: t =>
                @List.Forall_cons _ _ kv t (JsValue_nested_ind (snd kv)) (fields t)
            end) props)
  end.
End JsValue_induction.

(** [typeof value], as the [switch] of [isEmpty] reads it. *)
Definition typeof (value : JsValue) : string :=
  match value with
  | VUndefined => "undefined"
  | VNull => "object"
  | VBoolean _ => "boolean"
  | VNumber _ => "number"
  | VBigInt _ => "bigint"
  | VString _ => "string"
  | VSymbol _ => "symbol"
  | VFunction => "function"
  | VDate _ | VArray _ | VObject _ => "object"
  end.

(** [value instanceof Date] and [Array.isArray(value)]. *)
Definition instanceof_Date (value : JsValue) : bool :=
  match value with VDate _ => true | _ => false end.

Definition Array_isArray (value : JsValue) : bool :=
  match value with VArray _ => true | _ => false end.

(** The code units [String.prototype.trim] strips: WhiteSpace (TAB, VT, FF,
    ZWNBSP and the space separators) and LineTerminator (LF, CR, LS, PS). *)
Definition isWhiteSpace (c : code_unit) : bool :=
  ((c =? 0x0009) || (c =? 0x000A) || (c =? 0x000B) || (c =? 0x000C)
   || (c =? 0x000D) || (c =? 0x0020) || (c =? 0x00A0) || (c =? 0x1680)
   || ((0x2000 <=? c) && (c <=? 0x200A)) || (c =? 0x2028) || (c =? 0x2029)
   || (c =? 0x202F) || (c =? 0x205F) || (c =? 0x3000) || (c =? 0xFEFF))%N.

Fixpoint trimStart (s : jsstring) : jsstring :=
  match s with
  | [] => []
  | c :: t => if isWhiteSpace c then trimStart t else s
  end.

Definition trimEnd (s : jsstring) : jsstring := rev (trimStart (rev s)).

Definition trim (s : jsstring) : jsstring := trimEnd (trimStart s).

(** [Object.keys(value)] of an ordinary object. *)
Definition Object_keys (props : list (jsstring * JsValue)) : list jsstring :=
  map fst props.

(** [Array.prototype.every]: the callback is not called on holes. *)
Definition every {A : Type} (callback : A -> bool) : list (option A) -> bool :=
  fix go (slots : list (option A)) : bool :=
    match slots with
    | [] => true
    | None :: rest => go rest
    | Some x :: rest => callback x && go rest
    end.

(** [isEmpty], case by case as in the source: the [null]/[undefined] test,
    then the [switch] on [typeof value]. *)
Fixpoint isEmpty (value : JsValue) : bool :=
  match value with
  | VNull | VUndefined => true
  | VNumber _ | VBoolean _ => false
  | VString s => (length (trim s) =? 0)%nat
  | VDate _ => false
  | VArray elems => (length elems =? 0)%nat || every isEmpty elems
  | VObject props => (length (Object_keys props) =? 0)%nat
  | VBigInt _ | VSymbol _ | VFunction => false
  end.

(** What the documentation of [isEmpty] calls an empty value: [null] or
    [undefined], a string that trims to nothing, an array that is empty or
    holds only empty values, an object with no own keys. *)
Inductive EmptyValue : JsValue -> Prop :=
| empty_null : EmptyValue VNull
| empty_undefined : EmptyValue VUndefined
| empty_string s : length (trim s) = 0 -> EmptyValue (VString s)
| empty_array elems :
    elems = [] \/ (forall x, Some x ∈ elems -> EmptyValue x) ->
    EmptyValue (VArray elems)
| empty_object props : Object_keys props = [] -> EmptyValue (VObject props).

End Guard.

(* ===================================================================== *)
(** * Objects, the heap and the effects of a call *)
(* ===================================================================== *)

Module Runtime.

(** Objects with an identity are heap cells; a reference is an address. *)
Abbreviation addr := nat.

(** What a field typed [unknown] (or an optional object) can hold, as far as
    these packages look at it: [undefined], a reference to an object of one
    of the classes below, or any other value (an inbound request, an
    outbound response, a metadata record), which the packages pass around
    without inspecting. *)
Inductive Value : Type :=
| VUndefined
| VForeign (id : N)
| VRef (a : addr).

(** The fields of an [ExceptionBase] instance once its constructor and the
    field initialiser of its concrete class have run.  [correlationId] is
    typed [string] but holds whatever [ctx.requestId] held: [None] stands
    for [undefined]. *)
Record Exception : Type := mkException {
  code : string;
  message : string;
  correlationId : option string;
  stack : string;
  cause : Value;
  metadata : Value
}.

(** What an own enumerable property of an [Error] holds: a string, a number
    that is the integer [z], or any other value (a getter counts as the
    value it returns). *)
Inductive Property : Type :=
| PString (s : string)
| PInteger (z : Z)
| PValue (v : Value).

(** Heap cells, by class.  [AppRequestContext extends RequestContext] adds
    [requestId], which has no initialiser ([requestId!: string]): [None]
    stands for [undefined].  [ObjError] is an [Error] that is not an
    [ExceptionBase]: its [message] and [stack] are not enumerable; [own]
    lists the enumerable properties it has of its own, in insertion order
    (the [errno], [code], [syscall] and [path] of a file system error, say),
    and [toJSON] tells whether it has a [toJSON] method. *)
Inductive Obj : Type :=
| ObjRequestContext (request response : Value)
| ObjAppRequestContext (request response : Value) (requestId : option string)
| ObjError (message stack : string) (own : list (string * Property))
    (toJSON : bool)
| ObjException (e : Exception).

Abbreviation Heap := (list Obj).

(** What a [throw] carries: an [Error] made on the spot, or an instance of
    the exception taxonomy. *)
Inductive Thrown : Type :=
| ThrowError (message : string)
| ThrowException (e : addr).

Definition is_domain_exception (t : Thrown) : bool :=
  match t with ThrowException _ => true | ThrowError _ => false end.

Inductive Res (A : Type) : Type :=
| Ok (a : A)
| Throw (t : Thrown).
Arguments Ok {A} a.
Arguments Throw {A} t.

(** A synchronous call reads the store of [RequestContext.cls] that is
    current for the caller (it cannot replace it: only [cls.run] does),
    reads and writes the heap, and returns or throws. *)
Definition M (A : Type) : Type := option addr -> Heap -> Res A * Heap.

Definition ret {A} (a : A) : M A := fun _ h => (Ok a, h).

Definition bind {A B} (m : M A) (k : A -> M B) : M B :=
  fun store h =>
    match m store h with
    | (Ok a, h') => k a store h'
    | (Throw t, h') => (Throw t, h')
    end.

Definition throw {A} (t : Thrown) : M A := fun _ h => (Throw t, h).

Definition getStore : M (option addr) := fun store h => (Ok store, h).

Definition gets {A} (f : Heap -> A) : M A := fun _ h => (Ok (f h), h).

Definition modify (f : Heap -> Heap) : M unit := fun _ h => (Ok tt, f h).

(** [new C(...)]: the next free cell. *)
Definition alloc (mk : addr -> Obj) : M addr :=
  fun _ h => (Ok (length h), h ++ [mk (length h)]).

Declare Scope js_scope.
Delimit Scope js_scope with js.
Notation "'let*' x ':=' m 'in' k" := (bind m (fun x => k))
  (at level 10, x name, m at level 100, k at level 200) : js_scope.

End Runtime.

(* ===================================================================== *)
(** * RequestContext, AppRequestContext and RequestContextService *)
(* ===================================================================== *)

Module Context.
Import Runtime.
#[local] Open Scope js_scope.

(** [new RequestContext(request, response)] *)
Definition new_RequestContext (request response : Value) : M addr :=
  alloc (fun _ => ObjRequestContext request response).

(** [new AppRequestContext(request, response)]: the inherited constructor;
    [requestId] is left unset. *)
Definition new_AppRequestContext (request response : Value) : M addr :=
  alloc (fun _ => ObjAppRequestContext request response None).

(** [static get currentContext() { return RequestContext.cls.getStore(); }] *)
Definition currentContext : M (option addr) := getStore.

(** [o?.request] for [o] the current context, if any.  An object without a
    [request] property reads as [undefined]. *)
Definition optional_request (h : Heap) (o : option addr) : Value :=
  match o with
  | None => VUndefined
  | Some c =>
      match h !! c with
      | Some (ObjRequestContext request _) => request
      | Some (ObjAppRequestContext request _ _) => request
      | _ => VUndefined
      end
  end.

(** [v instanceof AppRequestContext], with the narrowing it gives. *)
Definition instanceof_AppRequestContext (h : Heap) (v : Value) : option addr :=
  match v with
  | VRef a =>
      match h !! a with
      | Some (ObjAppRequestContext _ _ _) => Some a
      | _ => None
      end
  | _ => None
  end.

Definition not_an_instance : string :=
  "Current context is not an instance of AppRequestContext".

(** [RequestContextService.getContext()] *)
Definition getContext : M addr :=
  let* current := currentContext in
  let* ctx := gets (fun h => optional_request h current) in
  let* narrowed := gets (fun h => instanceof_AppRequestContext h ctx) in
  match narrowed with
  | Some a => ret a
  | None => throw (ThrowError not_an_instance)
  end.

(** [ctx.requestId] and [ctx.requestId = id] for [ctx : AppRequestContext]. *)
Definition requestId_of (h : Heap) (ctx : addr) : option string :=
  match h !! ctx with
  | Some (ObjAppRequestContext _ _ requestId) => requestId
  | _ => None
  end.

Definition assign_requestId (ctx : addr) (id : string) (h : Heap) : Heap :=
  match h !! ctx with
  | Some (ObjAppRequestContext request response _) =>
      <[ctx := ObjAppRequestContext request response (Some id)]> h
  | _ => h
  end.

(** [RequestContextService.setRequestId(id)] *)
Definition setRequestId (id : string) : M unit :=
  let* ctx := getContext in
  modify (assign_requestId ctx id).

(** [RequestContextService.getRequestId()] *)
Definition getRequestId : M (option string) :=
  let* ctx := getContext in
  gets (fun h => requestId_of h ctx).

(** ** Shapes of the heap *)

(** The object at [c] has a field [request] that holds [v]. *)
Definition has_request (h : Heap) (c : addr) (v : Value) : Prop :=
  match h !! c with
  | Some (ObjRequestContext request _) => request = v
  | Some (ObjAppRequestContext request _ _) => request = v
  | _ => False
  end.

(** The object at [a] is an instance of [AppRequestContext]. *)
Definition is_AppRequestContext (h : Heap) (a : addr) : Prop :=
  match h !! a with
  | Some (ObjAppRequestContext _ _ _) => True
  | _ => False
  end.

(** A context is current and its [request] field refers to the
    [AppRequestContext] at [a]. *)
Definition ambient_request (store : option addr) (h : Heap) (a : addr) : Prop :=
  exists c, store = Some c /\ has_request h c (VRef a) /\
            is_AppRequestContext h a.

(** A reference handed to a constructor refers to an object that exists. *)
Definition known (h : Heap) (v : Value) : Prop :=
  match v with
  | VRef a => a < length h
  | _ => True
  end.

(** The [request] fields are [readonly] and set by the constructor, whose
    argument exists before the object does: a [request] field refers to an
    older object. *)
Definition constructed (h : Heap) : Prop :=
  forall c a, has_request h c (VRef a) -> a < c.

End Context.

(* ===================================================================== *)
(** * ExceptionBase and the concrete exception kinds *)
(* ===================================================================== *)

Module Exceptions.
Import Runtime Context.
#[local] Open Scope js_scope.

(** The services of the JavaScript engine that [ExceptionBase] calls and
    whose result depends on more than the heap cells above: the text that
    [Error.captureStackTrace] records for the object under construction;
    [JSON.stringify] on a value whose serialization runs code or reads data
    that the heap cells do not hold (a [toJSON] method, a getter, a foreign
    value), which may read the current context, and returns a text,
    [undefined], or throws; and the text of a number beyond the safe
    integers.  The code that the engine runs during [JSON.stringify] is
    taken not to call the constructors or [setRequestId] of the two
    packages: whatever else it does, it leaves their objects as they
    are. *)
Record Engine : Type := mkEngine {
  captureStackTrace : addr -> string;
  JSON_stringify_other : option addr -> Heap -> Value -> Res (option string);
  Number_toString : Z -> string
}.

(** The characters that JSON puts a backslash before, and the quote. *)
Definition dquote : string := String (Ascii.ascii_of_nat 34) EmptyString.
Definition backslash : string := String (Ascii.ascii_of_nat 92) EmptyString.

Definition hex_digit (n : nat) : string :=
  match n with
  | 0 => "0" | 1 => "1" | 2 => "2" | 3 => "3" | 4 => "4" | 5 => "5"
  | 6 => "6" | 7 => "7" | 8 => "8" | 9 => "9" | 10 => "a" | 11 => "b"
  | 12 => "c" | 13 => "d" | 14 => "e" | _ => "f"
  end.

(** [QuoteJSONString] of ECMA-262, on a string given by the bytes of its
    UTF-8 form: the quote, the backslash and the control characters are
    escaped, everything else is kept. *)
Definition JSON_escape (c : Ascii.ascii) : string :=
  let n := Ascii.nat_of_ascii c in
  if (n =? 34)%nat then backslash +:+ dquote
  else if (n =? 92)%nat then backslash +:+ backslash
  else if (n =? 8)%nat then backslash +:+ "b"
  else if (n =? 9)%nat then backslash +:+ "t"
  else if (n =? 10)%nat then backslash +:+ "n"
  else if (n =? 12)%nat then backslash +:+ "f"
  else if (n =? 13)%nat then backslash +:+ "r"
  else if (n <? 32)%nat then
    backslash +:+ "u00" +:+ hex_digit (n / 16) +:+ hex_digit (n mod 16)
  else String c EmptyString.

Definition JSON_quote (s : string) : string :=
  dquote
  +:+ String.concat "" (map JSON_escape (String.list_ascii_of_string s))
  +:+ dquote.

(** The safe integers, whose decimal digits are the text of the number. *)
Definition is_safe_integer (z : Z) : bool :=
  (Z.abs z <=? 9007199254740991)%Z.

(** A property whose serialization runs no code and asks nothing of the
    engine but, at most, the digits of a number: a string, a number, or
    [undefined]. *)
Definition plain_data (p : Property) : Prop :=
  match p with
  | PString _ | PInteger _ | PValue VUndefined => True
  | PValue _ => False
  end.

(** [interface SerializedException]; an absent optional field and a field
    holding [undefined] are both [None] (resp. [VUndefined]). *)
Record SerializedException : Type := mkSerialized {
  s_message : string;
  s_code : string;
  s_correlationId : option string;
  s_stack : option string;
  s_cause : option string;
  s_metadata : Value
}.

(** Modelled from the spec: the constant [NOT_FOUND] of
    [exception.codes.ts], which the exception classes import and whose text
    is missing; the spec shows the value in the record serialized from a
    [NotFoundException]. *)
Definition NOT_FOUND : string := "NOT_FOUND".

Section WithEngine.
Context (engine : Engine).

(** The other constants of [exception.codes.ts]. *)
Variables ARGUMENT_OUT_OF_RANGE CONFLICT INTERNAL_SERVER_ERROR : string.

(** [SerializeJSONProperty] on the value of a property: [undefined] means
    that the property is left out. *)
Definition JSON_property (store : option addr) (h : Heap) (p : Property)
    : Res (option string) :=
  match p with
  | PString s => Ok (Some (JSON_quote s))
  | PInteger z =>
      Ok (Some (if is_safe_integer z then pretty z
                else Number_toString engine z))
  | PValue VUndefined => Ok None
  | PValue v => JSON_stringify_other engine store h v
  end.

(** The members of [SerializeJSONObject], in property order; the first
    property whose serialization throws ends it. *)
Fixpoint JSON_members (store : option addr) (h : Heap)
    (own : list (string * Property)) : Res (list string) :=
  match own with
  | [] => Ok []
  | (key, p) :: rest =>
      match JSON_property store h p with
      | Throw t => Throw t
      | Ok None => JSON_members store h rest
      | Ok (Some text) =>
          match JSON_members store h rest with
          | Throw t => Throw t
          | Ok members => Ok ((JSON_quote key +:+ ":" +:+ text) :: members)
          end
      end
  end.

Definition JSON_object (members : list string) : string :=
  "{" +:+ String.concat "," members +:+ "}".

(** [JSON.stringify(v)]: [undefined] gives [undefined], not a string; an
    [Error] that has no [toJSON] and is not an [ExceptionBase] gives the
    text of an object with its own enumerable properties ([message] and
    [stack] are not among them), or throws what serializing one of them
    throws; on anything else the engine is asked. *)
Definition JSON_stringify (v : Value) : M (option string) :=
  fun store h =>
    match v with
    | VUndefined => (Ok None, h)
    | VRef a =>
        match h !! a with
        | Some (ObjError _ _ own false) =>
            match JSON_members store h own with
            | Ok members => (Ok (Some (JSON_object members)), h)
            | Throw t => (Throw t, h)
            end
        | _ => (JSON_stringify_other engine store h v, h)
        end
    | VForeign _ => (JSON_stringify_other engine store h v, h)
    end.

(** [new K(message, cause, metadata)] for a concrete kind [K] whose field
    initialiser is [code = c]: the constructor of [ExceptionBase], then
    the initialiser.  The reference to the new object exists for the
    caller only once the constructor has returned, so the cell is written
    when it does. *)
Definition new_ExceptionBase (c : string) (message : string)
    (cause metadata : Value) : M addr :=
  let* ctx := getContext in
  let* requestId := gets (fun h => requestId_of h ctx) in
  alloc (fun this =>
           ObjException
             {| code := c;
                message := message;
                correlationId := requestId;
                stack := captureStackTrace engine this;
                cause := cause;
                metadata := metadata |}).

(** A parameter with a default value: [undefined] selects the default. *)
Definition default_to (d : string) (arg : option string) : string :=
  match arg with Some s => s | None => d end.

Definition new_ArgumentOutOfRangeException (message : string)
    (cause metadata : Value) : M addr :=
  new_ExceptionBase ARGUMENT_OUT_OF_RANGE message cause metadata.

Definition new_ConflictException (message : string)
    (cause metadata : Value) : M addr :=
  new_ExceptionBase CONFLICT message cause metadata.

Definition new_InternalServerErrorException (message : option string)
    : M addr :=
  new_ExceptionBase INTERNAL_SERVER_ERROR
    (default_to "Internal server error" message) VUndefined VUndefined.

Definition new_NotFoundException (message : option string) : M addr :=
  new_ExceptionBase NOT_FOUND
    (default_to "Not found" message) VUndefined VUndefined.

(** [this.toJSON()] for [this] an instance with the fields [e]. *)
Definition toJSON (e : Exception) : M SerializedException :=
  let* text := JSON_stringify (cause e) in
  ret {| s_message := message e;
         s_code := code e;
         s_stack := Some (stack e);
         s_correlationId := correlationId e;
         s_cause := text;
         s_metadata := metadata e |}.

(** [x.toJSON()] for [x] a reference that may or may not hold an
    exception; only exceptions have the method. *)
Definition call_toJSON (x : addr) : M unit :=
  let* cell := gets (fun h => h !! x) in
  match cell with
  | Some (ObjException e) => let* _ := toJSON e in ret tt
  | _ => throw (ThrowError "x.toJSON is not a function")
  end.

(** [new Error(message)], as client code or the engine makes one. *)
Definition new_Error (message : string) : M addr :=
  alloc (fun this => ObjError message (captureStackTrace engine this) [] false).

(** The calls a client of the two packages can make. *)
Inductive Invocation : Type :=
| CallNewError (message : string)
| CallNewRequestContext (request response : Value)
| CallNewAppRequestContext (request response : Value)
| CallGetContext
| CallSetRequestId (id : string)
| CallGetRequestId
| CallNewException (c message : string) (cause metadata : Value)
| CallToJSON (this : addr).

Definition perform (c : Invocation) : M unit :=
  match c with
  | CallNewError message => let* _ := new_Error message in ret tt
  | CallNewRequestContext request response =>
      let* _ := new_RequestContext request response in ret tt
  | CallNewAppRequestContext request response =>
      let* _ := new_AppRequestContext request response in ret tt
  | CallGetContext => let* _ := getContext in ret tt
  | CallSetRequestId id => setRequestId id
  | CallGetRequestId => let* _ := getRequestId in ret tt
  | CallNewException c message cause metadata =>
      let* _ := new_ExceptionBase c message cause metadata in ret tt
  | CallToJSON this => call_toJSON this
  end.

(** A history: each call is made under the store current for its caller;
    a call that throws leaves the heap as it was when it threw. *)
Fixpoint history (calls : list (option addr * Invocation)) (h : Heap) : Heap :=
  match calls with
  | [] => h
  | (store, c) :: rest => history rest (snd (perform c store h))
  end.

(** The references a call passes exist when it is made. *)
Definition call_known (h : Heap) (c : Invocation) : Prop :=
  match c with
  | CallNewRequestContext request response
  | CallNewAppRequestContext request response =>
      known h request /\ known h response
  | CallNewException _ _ cause metadata => known h cause /\ known h metadata
  | CallToJSON this => this < length h
  | CallNewError _ | CallGetContext | CallSetRequestId _ | CallGetRequestId =>
      True
  end.

Fixpoint history_known (calls : list (option addr * Invocation)) (h : Heap)
    : Prop :=
  match calls with
  | [] => True
  | (store, c) :: rest =>
      call_known h c /\ history_known rest (snd (perform c store h))
  end.

End WithEngine.

(** [grows h h']: every object of [h] is still in [h'], the same but for the
    [requestId] of an [AppRequestContext]. *)
Definition grows (h h' : Heap) : Prop :=
  length h <= length h' /\
  forall x o, h !! x = Some o ->
    match o with
    | ObjAppRequestContext request response _ =>
        exists requestId,
          h' !! x = Some (ObjAppRequestContext request response requestId)
    | _ => h' !! x = Some o
    end.

End Exceptions.

(* ===================================================================== *)
(** * The scoped context store on a cooperative event loop *)
(* ===================================================================== *)

Module Async.
Import Runtime Context.

(** Code that runs on the event loop, as far as the store is concerned:
    it calls into the packages, reads [RequestContext.currentContext] (the
    call site is recorded so that readings can be told apart), suspends at
    an [await], starts an asynchronous function without awaiting it, or
    enters a scope with [RequestContext.cls.run(ctx, body)].  Awaiting a
    nested asynchronous call is that call's code followed by the caller's. *)
Inductive Prog : Type :=
| Done
| Call {A : Type} (m : M A) (k : Res A -> Prog)
| CurrentContext (site : nat) (k : option addr -> Prog)
| Await (k : Prog)
| Spawn (body k : Prog)
| Run (ctx : addr) (body k : Prog).

(** The one thread: the heap, the store of [RequestContext.cls] for the code
    now running, the continuations that wait to be resumed, each with the
    store that was current when it suspended, and what the readings of
    [currentContext] returned so far. *)
Record Machine : Type := mkMachine {
  heap : Heap;
  store : option addr;
  suspended : list (option addr * Prog);
  observed : list (nat * option addr)
}.

Definition with_store (s : option addr) (st : Machine) : Machine :=
  {| heap := heap st; store := s;
     suspended := suspended st; observed := observed st |}.

(** Modelled from the spec: [AsyncLocalStorage] of [node:async_hooks]; its
    [run] and [getStore] and the event loop under them belong to the
    runtime, and the repository has no source for them.  After the spec's
    Scoped Context Store: [run(context, operation)] installs [context] as
    the ambient value, executes [operation] and restores the previous
    ambient value when the synchronous part of [operation] returns; a
    suspended continuation keeps the ambient value it had and gets it back
    on resumption; with no scope active the ambient value is absent.
    [exec] runs code up to its completion or suspension; a reading goes
    through the getter [currentContext] of the source, which never
    throws. *)
Fixpoint exec (p : Prog) (st : Machine) : Machine :=
  match p with
  | Done => st
  | Call m k =>
      let '(r, h) := m (store st) (heap st) in
      exec (k r)
        {| heap := h; store := store st;
           suspended := suspended st; observed := observed st |}
  | CurrentContext site k =>
      let '(r, h) := currentContext (store st) (heap st) in
      match r with
      | Ok c =>
          exec (k c)
            {| heap := h; store := store st;
               suspended := suspended st;
               observed := observed st ++ [(site, c)] |}
      | Throw _ => st
      end
  | Await k =>
      {| heap := heap st; store := store st;
         suspended := suspended st ++ [(store st, k)];
         observed := observed st |}
  | Spawn body k => exec k (exec body st)
  | Run ctx body k =>
      let saved := store st in
      exec k (with_store saved (exec body (with_store (Some ctx) st)))
  end.

(** Modelled from the spec: the event loop of the runtime, for which the
    repository has no source.  One turn resumes the [i]-th waiting continuation (any
    of them may be the next to complete) under the store it captured, runs
    it to its next suspension, and leaves the thread idle, outside every
    scope. *)
Definition resume (i : nat) (st : Machine) : Machine :=
  match suspended st !! i with
  | None => st
  | Some (captured, k) =>
      with_store None
        (exec k {| heap := heap st; store := captured;
                   suspended := delete i (suspended st);
                   observed := observed st |})
  end.

Fixpoint loop (schedule : list nat) (st : Machine) : Machine :=
  match schedule with
  | [] => st
  | i :: rest => loop rest (resume i st)
  end.

(** The thread starts [main] outside every scope. *)
Definition start (h : Heap) (main : Prog) : Machine :=
  with_store None
    (exec main {| heap := h; store := None; suspended := []; observed := [] |}).



End Async.

(* ===================================================================== *)
(** * Concrete heaps and engines used as test inputs *)
(* ===================================================================== *)

Module Scenarios.
Import Runtime Context Exceptions.

(** An [AppRequestContext] built around inbound request 1 and outbound
    response 2; stored as such, it is the current context at address 0. *)
Definition heap_direct : Heap :=
  [ObjAppRequestContext (VForeign 1) (VForeign 2) (Some "abc")].

(** A [RequestContext] at address 1 whose [request] is the
    [AppRequestContext] at address 0. *)
Definition heap_wrapped (requestId : option string) : Heap :=
  [ObjAppRequestContext (VForeign 1) (VForeign 2) requestId;
   ObjRequestContext (VRef 0) (VForeign 2)].

(** An [AppRequestContext] at address 1 whose [request] is another
    [AppRequestContext], at address 0. *)
Definition heap_nested : Heap :=
  [ObjAppRequestContext (VForeign 1) (VForeign 2) (Some "xyz");
   ObjAppRequestContext (VRef 0) (VForeign 2) (Some "abc")].

(** [heap_wrapped] with a plain [Error] at address 2. *)
Definition heap_with_error : Heap :=
  heap_wrapped (Some "r-1") ++ [ObjError "boom" "Error: boom" [] false].

(** An engine: some stack text, and some answer of [JSON.stringify] on the
    values these packages do not fix. *)
Definition engine0 : Engine :=
  {| captureStackTrace := fun _ => "Error";
     JSON_stringify_other := fun _ _ _ => Ok (Some "{}");
     Number_toString := pretty |}.

(** [heap_wrapped] with, at address 2, the [Error] that opening a missing
    file throws: four enumerable properties of its own. *)
Definition heap_with_fs_error : Heap :=
  heap_wrapped (Some "r-1")
  ++ [ObjError "ENOENT: no such file or directory, open 'missing.txt'"
        "Error: ENOENT: no such file or directory, open 'missing.txt'"
        [("errno", PInteger (-2)); ("code", PString "ENOENT");
         ("syscall", PString "open"); ("path", PString "missing.txt")]
        false].

(** A text between double quotes, and the text that [JSON.stringify] gives
    for that [Error]. *)
Definition quoted (s : string) : string := dquote +:+ s +:+ dquote.

Definition fs_error_text : string :=
  "{" +:+ quoted "errno" +:+ ":-2,"
  +:+ quoted "code" +:+ ":" +:+ quoted "ENOENT" +:+ ","
  +:+ quoted "syscall" +:+ ":" +:+ quoted "open" +:+ ","
  +:+ quoted "path" +:+ ":" +:+ quoted "missing.txt" +:+ "}".

(** [heap_wrapped] with, at address 2, an [Error] to which a property was
    added whose value is foreign value 20, a bigint say. *)
Definition heap_with_bigint_error : Heap :=
  heap_wrapped (Some "r-1")
  ++ [ObjError "boom" "Error: boom"
        [("code", PString "E_BIG"); ("size", PValue (VForeign 20))] false].

(** An engine for which foreign value 20 is a bigint: [JSON.stringify]
    throws a [TypeError] on it. *)
Definition engine_bigint : Engine :=
  {| captureStackTrace := fun _ => "Error";
     JSON_stringify_other := fun _ _ v =>
       match v with
       | VForeign 20 => Throw (ThrowError "Do not know how to serialize a BigInt")
       | _ => Ok (Some "{}")
       end;
     Number_toString := pretty |}.






(** Two contexts of the shape [getContext] accepts, at addresses 1 and 3,
    with request ids ["r-1"] and ["r-2"]. *)
Definition heap_two_requests : Heap :=
  [ObjAppRequestContext (VForeign 1) (VForeign 2) (Some "r-1");
   ObjRequestContext (VRef 0) (VForeign 2);
   ObjAppRequestContext (VForeign 3) (VForeign 4) (Some "r-2");
   ObjRequestContext (VRef 2) (VForeign 4)].

(** A handler that suspends and then fails with [new NotFoundException()]. *)
Definition failing_handler : Async.Prog :=
  Async.Await
    (Async.Call (new_NotFoundException engine0 None) (fun _ => Async.Done)).

Definition two_failing_requests : Async.Prog :=
  Async.Run 1 failing_handler (Async.Run 3 failing_handler Async.Done).

End Scenarios.

(* ===================================================================== *)
(** * Values built from others *)
(* ===================================================================== *)

Module Shapes.
Import Guard.

(** [wrap n v] is [v] inside [n] one-element arrays: [[[v]]] for [n = 2]. *)
Fixpoint wrap (n : nat) (v : JsValue) : JsValue :=
  match n with
  | 0 => v
  | S m => VArray [Some (wrap m v)]
  end.

End Shapes.

(* ===================================================================== *)
(** * Properties of the emptiness guard *)
(* ===================================================================== *)

Module GuardFacts.
Import Guard.

Lemma trimStart_nil (s : jsstring) :
  trimStart s = [] <-> Forall (fun c => isWhiteSpace c = true) s.
Proof.
  induction s as [|c t IH]; simpl.
  - split; [constructor | reflexivity].
  - destruct (isWhiteSpace c) eqn:Hc.
    + rewrite IH. split.
      * intros Ht. constructor; assumption.
      * intros Hall. inversion Hall; assumption.
    + split; [discriminate |].
      intros Hall. inversion Hall; congruence.
Qed.

Lemma trimStart_suffix (s : jsstring) :
  exists blanks, s = blanks ++ trimStart s /\
                 Forall (fun c => isWhiteSpace c = true) blanks.
Proof.
  induction s as [|c t [blanks [Heq Hall]]]; simpl.
  - exists []. split; [reflexivity | constructor].
  - destruct (isWhiteSpace c) eqn:Hc.
    + exists (c :: blanks). split.
      * simpl. f_equal. exact Heq.
      * constructor; assumption.
    + exists []. split; [reflexivity | constructor].
Qed.

(** A string trims to nothing exactly when it holds only white space. *)
Lemma trim_length_zero (s : jsstring) :
  length (trim s) = 0 <-> Forall (fun c => isWhiteSpace c = true) s.
Proof.
  unfold trim, trimEnd. rewrite length_rev. split.
  - intros Hlen. apply nil_length_inv in Hlen.
    apply trimStart_nil in Hlen.
    apply Forall_rev in Hlen. rewrite rev_involutive in Hlen.
    destruct (trimStart_suffix s) as [blanks [Heq Hblanks]].
    rewrite Heq. apply Forall_app. split; assumption.
  - intros Hall. apply trimStart_nil in Hall. rewrite Hall. reflexivity.
Qed.

Lemma every_true {A} (f : A -> bool) (slots : list (option A)) :
  every f slots = true <-> forall x, Some x ∈ slots -> f x = true.
Proof.
  induction slots as [|e t IH]; simpl.
  - split; [| reflexivity]. intros _ x Hx. inversion Hx.
  - destruct e as [y|].
    + rewrite andb_true_iff, IH. split.
      * intros [Hy Ht] x Hx. apply elem_of_cons in Hx.
        destruct Hx as [Hx | Hx]; [congruence | auto].
      * intros Hall. split.
        -- apply Hall. left.
        -- intros x Hx. apply Hall. right. exact Hx.
    + rewrite IH. split.
      * intros Ht x Hx. apply elem_of_cons in Hx.
        destruct Hx as [Hx | Hx]; [discriminate | auto].
      * intros Hall x Hx. apply Hall. right. exact Hx.
Qed.

Lemma length_zero_eqb {A} (l : list A) : (length l =? 0)%nat = true <-> l = [].
Proof.
  destruct l; simpl; split; intros H; try reflexivity; discriminate.
Qed.

Lemma isEmpty_sound_complete (v : JsValue) : isEmpty v = true <-> EmptyValue v.
Proof.
  induction v as [ | | b | x | z | s | d | | t | elems IH | props IH ]
    using JsValue_nested_ind; simpl.
  - split; [constructor | reflexivity].
  - split; [constructor | reflexivity].
  - split; [discriminate | intros H; inversion H].
  - split; [discriminate | intros H; inversion H].
  - split; [discriminate | intros H; inversion H].
  - rewrite Nat.eqb_eq. split.
    + intros H. constructor. exact H.
    + intros H. inversion H. assumption.
  - split; [discriminate | intros H; inversion H].
  - split; [discriminate | intros H; inversion H].
  - split; [discriminate | intros H; inversion H].
  - rewrite orb_true_iff, length_zero_eqb, every_true.
    assert (Hin : forall x, Some x ∈ elems ->
                            (isEmpty x = true <-> EmptyValue x)).
    { intros x Hx. rewrite Forall_forall in IH. exact (IH _ Hx). }
    split.
    + intros [Hnil | Hall]; constructor; [left; exact Hnil |].
      right. intros x Hx. apply Hin; auto.
    + intros H. inversion H as [ | | | elems' [Hnil | Hall] | ]; subst;
        [left; reflexivity |].
      right. intros x Hx. apply Hin; auto.
  - rewrite length_zero_eqb. split.
    + intros H. constructor. exact H.
    + intros H. inversion H. assumption.
Qed.

(** The constructor-wise definition takes the branches of the source: the
    test for [null] and [undefined], then the [switch] on [typeof value]
    with its [instanceof Date] and [Array.isArray] tests under ['object']
    and its [default]. *)
Lemma isEmpty_as_switch (value : JsValue) :
  isEmpty value =
  match value with
  | VNull | VUndefined => true
  | _ =>
      if String.eqb (typeof value) "number"
         || String.eqb (typeof value) "boolean" then false
      else if String.eqb (typeof value) "string" then
        match value with
        | VString s => (length (trim s) =? 0)%nat
        | _ => false
        end
      else if String.eqb (typeof value) "object" then
        if instanceof_Date value then false
        else if Array_isArray value then
          match value with
          | VArray elems => (length elems =? 0)%nat || every isEmpty elems
          | _ => false
          end
        else
          match value with
          | VObject props => (length (Object_keys props) =? 0)%nat
          | _ => false
          end
      else false
  end.
Proof. destruct value; reflexivity. Qed.

(** The cases of the package's own test suite. *)
Example isEmpty_tests :
  isEmpty VNull = true /\ isEmpty VUndefined = true /\
  isEmpty (VNumber 0) = false /\ isEmpty (VNumber 123) = false /\
  isEmpty (VNumber (-3)) = false /\ isEmpty (VNumber 12.3) = false /\
  isEmpty (VBoolean true) = false /\ isEmpty (VBoolean false) = false /\
  isEmpty (VString (js "")) = true /\ isEmpty (VString (js "   ")) = true /\
  isEmpty (VString (js "hello")) = false /\
  isEmpty (VString (js "  hello  ")) = false /\
  isEmpty (VDate 0) = false /\
  isEmpty (VArray []) = true /\
  isEmpty (VArray [Some VNull; Some VUndefined; Some (VString (js ""));
                   Some (VString (js "   ")); Some (VArray [])]) = true /\
  isEmpty (VArray [Some (VNumber 1); Some (VString (js "hello"));
                   Some (VObject [])]) = false /\
  isEmpty (VObject []) = true /\
  isEmpty (VObject [(js "key", VString (js "value"))]) = false /\
  isEmpty (VObject [(js "key", VUndefined)]) = false.
Proof. repeat split; reflexivity. Qed.

(** Values the documentation does not list: a sparse array of holes only is
    empty, a function, a symbol and a bigint are not. *)
Example isEmpty_other_values :
  isEmpty (VArray [None; None]) = true /\
  isEmpty (VArray [None; Some (VNumber 0)]) = false /\
  isEmpty VFunction = false /\ isEmpty (VSymbol (js "s")) = false /\
  isEmpty (VBigInt 0) = false.
Proof. repeat split; reflexivity. Qed.

(** C10.  [isEmpty] is a total function on values (it is defined by
    structural recursion on a finite, hence acyclic, value); it returns
    [true] exactly on [null], [undefined], a string whose trimmed length is
    zero, an array that is empty or whose elements are all empty in turn,
    and an object that is neither a [Date] nor an array and has no own
    enumerable key; it returns [false] on every number, every boolean and
    every [Date]. *)
Theorem isEmpty_characterisation :
  (forall v, exists b, isEmpty v = b) /\
  (forall v, isEmpty v = true <-> EmptyValue v) /\
  (forall x, isEmpty (VNumber x) = false) /\
  (forall b, isEmpty (VBoolean b) = false) /\
  (forall t, isEmpty (VDate t) = false).
Proof.
  split; [intros v; eexists; reflexivity |].
  split; [exact isEmpty_sound_complete |].
  repeat split.
Qed.

End GuardFacts.

(* ===================================================================== *)
(** * Properties of RequestContextService *)
(* ===================================================================== *)

Module ContextFacts.
Import Runtime Context.

Lemma getContext_unfold (store : option addr) (h : Heap) :
  getContext store h =
  match instanceof_AppRequestContext h (optional_request h store) with
  | Some a => (Ok a, h)
  | None => (Throw (ThrowError not_an_instance), h)
  end.
Proof.
  unfold getContext, bind, currentContext, getStore, gets. simpl.
  destruct (instanceof_AppRequestContext h (optional_request h store));
    reflexivity.
Qed.

Lemma instanceof_Some (h : Heap) (v : Value) (a : addr) :
  instanceof_AppRequestContext h v = Some a <->
  v = VRef a /\ is_AppRequestContext h a.
Proof.
  unfold instanceof_AppRequestContext, is_AppRequestContext. split.
  - destruct v as [ | n | b ]; try discriminate.
    destruct (h !! b) as [[ | | | ]|] eqn:Hb; try discriminate.
    intros H. inversion H; subst. rewrite Hb. split; [reflexivity | exact I].
  - intros [-> Ha].
    destruct (h !! a) as [[ | | | ]|]; try contradiction. reflexivity.
Qed.

Lemma optional_request_ref (h : Heap) (store : option addr) (a : addr) :
  optional_request h store = VRef a <->
  exists c, store = Some c /\ has_request h c (VRef a).
Proof.
  unfold optional_request, has_request. split.
  - destruct store as [c|]; [| discriminate].
    intros Hreq. exists c. split; [reflexivity |].
    destruct (h !! c) as [[ | | | ]|]; try discriminate; exact Hreq.
  - intros [c [-> Hreq]].
    destruct (h !! c) as [[ | | | ]|]; try contradiction; exact Hreq.
Qed.

(** [getContext] succeeds with [a] exactly when the [request] field of the
    current context refers to the [AppRequestContext] at [a]. *)
Lemma getContext_Ok (store : option addr) (h : Heap) (a : addr) :
  getContext store h = (Ok a, h) <-> ambient_request store h a.
Proof.
  rewrite getContext_unfold. unfold ambient_request. split.
  - destruct (instanceof_AppRequestContext h (optional_request h store))
      as [b|] eqn:Hn; [| discriminate].
    intros Heq. inversion Heq; subst b.
    apply instanceof_Some in Hn. destruct Hn as [Hv Ha].
    apply optional_request_ref in Hv. destruct Hv as [c [Hs Hreq]].
    exists c. auto.
  - intros [c [Hs [Hreq Ha]]].
    assert (Hv : optional_request h store = VRef a).
    { apply optional_request_ref. exists c. auto. }
    assert (Hn : instanceof_AppRequestContext h (optional_request h store)
                 = Some a).
    { apply instanceof_Some. auto. }
    rewrite Hn. reflexivity.
Qed.

(** [getContext] never writes the heap, and what it throws is the one
    [Error] of its last line. *)
Lemma getContext_cases (store : option addr) (h : Heap) :
  (exists a, getContext store h = (Ok a, h) /\ ambient_request store h a) \/
  (getContext store h = (Throw (ThrowError not_an_instance), h) /\
   forall a, ~ ambient_request store h a).
Proof.
  destruct (instanceof_AppRequestContext h (optional_request h store))
    as [a|] eqn:Hn.
  - left. exists a.
    assert (Hok : getContext store h = (Ok a, h)).
    { rewrite getContext_unfold, Hn. reflexivity. }
    split; [exact Hok | apply getContext_Ok; exact Hok].
  - right. split.
    + rewrite getContext_unfold, Hn. reflexivity.
    + intros a Ha. apply getContext_Ok in Ha.
      rewrite getContext_unfold, Hn in Ha. discriminate.
Qed.

Lemma ambient_request_functional store h a b :
  ambient_request store h a -> ambient_request store h b -> a = b.
Proof.
  intros Ha Hb. apply getContext_Ok in Ha. apply getContext_Ok in Hb.
  congruence.
Qed.

Lemma getContext_heap (store : option addr) (h : Heap) r h' :
  getContext store h = (r, h') -> h' = h.
Proof.
  destruct (getContext_cases store h) as [[a [Hok _]] | [Hthrow _]];
    congruence.
Qed.

(** ** Assignment to [requestId] *)

Lemma assign_requestId_lookup (a : addr) (id : string) (h : Heap) (x : addr) :
  assign_requestId a id h !! x =
  if decide (x = a) then
    match h !! a with
    | Some (ObjAppRequestContext request response _) =>
        Some (ObjAppRequestContext request response (Some id))
    | o => o
    end
  else h !! x.
Proof.
  unfold assign_requestId.
  destruct (h !! a) as [[ | request response rid | | ]|] eqn:Ha;
    case_decide; subst; try reflexivity; try assumption.
  - apply list_lookup_insert_eq. eapply lookup_lt_Some; eassumption.
  - apply list_lookup_insert_ne. congruence.
Qed.

Lemma assign_requestId_length a id h :
  length (assign_requestId a id h) = length h.
Proof.
  unfold assign_requestId.
  destruct (h !! a) as [[ | | | ]|]; try reflexivity. apply length_insert.
Qed.

Lemma has_request_assign a id h c v :
  has_request (assign_requestId a id h) c v <-> has_request h c v.
Proof.
  unfold has_request. rewrite assign_requestId_lookup.
  case_decide; subst; [| reflexivity].
  destruct (h !! a) as [[ | | | ]|]; reflexivity.
Qed.

Lemma is_AppRequestContext_assign a id h x :
  is_AppRequestContext (assign_requestId a id h) x <->
  is_AppRequestContext h x.
Proof.
  unfold is_AppRequestContext. rewrite assign_requestId_lookup.
  case_decide; subst; [| reflexivity].
  destruct (h !! a) as [[ | | | ]|]; reflexivity.
Qed.

Lemma ambient_request_assign a id store h x :
  ambient_request store (assign_requestId a id h) x <->
  ambient_request store h x.
Proof.
  unfold ambient_request. split; intros [c [Hs [Hreq Hx]]]; exists c;
    (split; [exact Hs |]); split.
  - apply has_request_assign in Hreq. exact Hreq.
  - apply is_AppRequestContext_assign in Hx. exact Hx.
  - apply has_request_assign. exact Hreq.
  - apply is_AppRequestContext_assign. exact Hx.
Qed.

Lemma requestId_of_assign a id h :
  is_AppRequestContext h a -> requestId_of (assign_requestId a id h) a = Some id.
Proof.
  unfold is_AppRequestContext, requestId_of. rewrite assign_requestId_lookup.
  case_decide; [| congruence].
  destruct (h !! a) as [[ | | | ]|]; try contradiction. reflexivity.
Qed.

Lemma setRequestId_unfold id store h :
  setRequestId id store h =
  match getContext store h with
  | (Ok a, h') => (Ok tt, assign_requestId a id h')
  | (Throw t, h') => (Throw t, h')
  end.
Proof.
  unfold setRequestId, bind, modify.
  destruct (getContext store h) as [[a | t] h']; reflexivity.
Qed.

Lemma getRequestId_unfold store h :
  getRequestId store h =
  match getContext store h with
  | (Ok a, h') => (Ok (requestId_of h' a), h')
  | (Throw t, h') => (Throw t, h')
  end.
Proof.
  unfold getRequestId, bind, gets.
  destruct (getContext store h) as [[a | t] h']; reflexivity.
Qed.

(** ** The accessor *)

(** C1, counterexample.  With an [AppRequestContext] that carries
    [requestId] stored as the current context, [getContext] throws; with a
    plain [RequestContext] stored (not the subtype), it returns. *)
Lemma getContext_ignores_stored_subtype :
  (is_AppRequestContext Scenarios.heap_direct 0 /\
   requestId_of Scenarios.heap_direct 0 = Some "abc" /\
   getContext (Some 0) Scenarios.heap_direct
   = (Throw (ThrowError not_an_instance), Scenarios.heap_direct)) /\
  (instanceof_AppRequestContext (Scenarios.heap_wrapped (Some "abc")) (VRef 1)
   = None /\
   getContext (Some 1) (Scenarios.heap_wrapped (Some "abc"))
   = (Ok 0, Scenarios.heap_wrapped (Some "abc"))).
Proof. repeat split. Qed.

(** C1, as the code has it.  [getContext] reads the current context from
    the store and, when there is one and its [request] field is an instance
    of [AppRequestContext], returns that instance; in every other case (no
    current context, or a [request] field that is not such an instance) it
    throws a plain [Error], which is not an exception of the taxonomy.
    One of the two cases always applies. *)
Theorem getContext_narrows_request_field (store : option addr) (h : Heap) :
  ((exists a, ambient_request store h a) \/
   (forall a, ~ ambient_request store h a)) /\
  (forall a, ambient_request store h a -> getContext store h = (Ok a, h)) /\
  ((forall a, ~ ambient_request store h a) ->
     getContext store h = (Throw (ThrowError not_an_instance), h)) /\
  is_domain_exception (ThrowError not_an_instance) = false.
Proof.
  split; [| split; [| split]].
  - destruct (getContext_cases store h) as [[a [_ Ha]] | [_ Hnone]];
      [left; exists a; exact Ha | right; exact Hnone].
  - intros a Ha. apply getContext_Ok. exact Ha.
  - intros Hnone.
    destruct (getContext_cases store h) as [[a [_ Ha]] | [Hthrow _]];
      [destruct (Hnone a Ha) | exact Hthrow].
  - reflexivity.
Qed.

Lemma getContext_narrows_request_field_witness :
  getContext (Some 1) (Scenarios.heap_wrapped None)
  = (Ok 0, Scenarios.heap_wrapped None) /\
  getContext None [] = (Throw (ThrowError not_an_instance), []).
Proof.
  split.
  - apply (getContext_narrows_request_field (Some 1)
             (Scenarios.heap_wrapped None)).
    exists 1. repeat split.
  - apply (getContext_narrows_request_field None []).
    intros a [c [Hc _]]. discriminate.
Defined.

(** C8, counterexample.  An [AppRequestContext] stored directly as the
    current context does not make [getContext] throw when its own [request]
    field is an [AppRequestContext]. *)
Lemma getContext_accepts_nested_subtype :
  is_AppRequestContext Scenarios.heap_nested 1 /\
  getContext (Some 1) Scenarios.heap_nested = (Ok 0, Scenarios.heap_nested).
Proof. repeat split. Qed.

(** C8, as the code has it.  When [getContext] succeeds, what it returns is
    the [request] field of the stored context, an instance of
    [AppRequestContext], and not the stored context itself; an
    [AppRequestContext] stored directly as the current context makes
    [getContext] throw unless its own [request] field is an
    [AppRequestContext] in turn. *)
Theorem getContext_returns_request_field (store : option addr) (h : Heap) :
  constructed h ->
  (forall a h', getContext store h = (Ok a, h') ->
     h' = h /\
     exists c, store = Some c /\ has_request h c (VRef a) /\
               is_AppRequestContext h a /\ a <> c) /\
  (forall c, store = Some c -> is_AppRequestContext h c ->
     (forall a, has_request h c (VRef a) -> ~ is_AppRequestContext h a) ->
     getContext store h = (Throw (ThrowError not_an_instance), h)).
Proof.
  intros Hwf. split.
  - intros a h' Hok.
    assert (Hh : h' = h) by (eapply getContext_heap; eassumption).
    subst h'. split; [reflexivity |].
    apply getContext_Ok in Hok. destruct Hok as [c [Hs [Hreq Ha]]].
    exists c. repeat split; try assumption.
    apply Hwf in Hreq. lia.
  - intros c Hs Hc Hnot.
    destruct (getContext_cases store h) as [[a [_ Ha]] | [Hthrow _]];
      [| exact Hthrow].
    destruct Ha as [c' [Hs' [Hreq Ha]]].
    assert (c' = c) by congruence. subst c'.
    destruct (Hnot a Hreq Ha).
Qed.

Lemma constructed_heap_wrapped rid : constructed (Scenarios.heap_wrapped rid).
Proof.
  intros c a. unfold has_request.
  destruct c as [|[|c]]; simpl; intros H; inversion H; lia.
Qed.

Lemma constructed_heap_direct : constructed Scenarios.heap_direct.
Proof.
  intros c a. unfold has_request.
  destruct c as [|c]; simpl; intros H; inversion H.
Qed.

Lemma getContext_returns_request_field_witness :
  (forall a h', getContext (Some 1) (Scenarios.heap_wrapped None) = (Ok a, h') ->
     h' = Scenarios.heap_wrapped None /\
     exists c, Some 1 = Some c /\
               has_request (Scenarios.heap_wrapped None) c (VRef a) /\
               is_AppRequestContext (Scenarios.heap_wrapped None) a /\ a <> c) /\
  getContext (Some 0) Scenarios.heap_direct
  = (Throw (ThrowError not_an_instance), Scenarios.heap_direct).
Proof.
  split.
  - apply (getContext_returns_request_field (Some 1)
             (Scenarios.heap_wrapped None)
             (constructed_heap_wrapped None)).
  - apply (proj2 (getContext_returns_request_field (Some 0)
                      Scenarios.heap_direct constructed_heap_direct) 0).
    + reflexivity.
    + exact I.
    + intros a H. inversion H.
Defined.

End ContextFacts.

(* ===================================================================== *)
(** * Properties of the exception taxonomy *)
(* ===================================================================== *)

Module ExceptionFacts.
Import Runtime Context Exceptions ContextFacts.

Section WithEngine.
Context (engine : Engine).

Lemma new_ExceptionBase_unfold k msg cause md store h :
  new_ExceptionBase engine k msg cause md store h =
  match getContext store h with
  | (Ok a, h') =>
      (Ok (length h'),
       h' ++ [ObjException
                {| code := k; message := msg;
                   correlationId := requestId_of h' a;
                   stack := captureStackTrace engine (length h');
                   cause := cause; metadata := md |}])
  | (Throw t, h') => (Throw t, h')
  end.
Proof.
  unfold new_ExceptionBase, bind, gets, alloc.
  destruct (getContext store h) as [[a | t] h']; reflexivity.
Qed.

Lemma JSON_stringify_heap v store h r h' :
  JSON_stringify engine v store h = (r, h') -> h' = h.
Proof.
  unfold JSON_stringify.
  destruct v as [ | n | a ]; [congruence | congruence |].
  destruct (h !! a) as [[ | | msg stk own [|] | ]|]; try congruence.
  destruct (JSON_members engine store h own); congruence.
Qed.

Lemma toJSON_unfold e store h :
  toJSON engine e store h =
  match JSON_stringify engine (cause e) store h with
  | (Ok text, h') =>
      (Ok {| s_message := message e; s_code := code e;
             s_stack := Some (stack e);
             s_correlationId := correlationId e;
             s_cause := text; s_metadata := metadata e |}, h')
  | (Throw t, h') => (Throw t, h')
  end.
Proof.
  unfold toJSON, bind, ret.
  destruct (JSON_stringify engine (cause e) store h) as [[text | t] h'];
    reflexivity.
Qed.

Lemma toJSON_heap e store h r h' :
  toJSON engine e store h = (r, h') -> h' = h.
Proof.
  rewrite toJSON_unfold.
  destruct (JSON_stringify engine (cause e) store h) as [[text | t] h1]
    eqn:Hj; apply JSON_stringify_heap in Hj; congruence.
Qed.

(** Construction, given what [getContext] finds. *)
Lemma new_ExceptionBase_Ok k msg cause md store h a :
  ambient_request store h a ->
  new_ExceptionBase engine k msg cause md store h =
  (Ok (length h),
   h ++ [ObjException
           {| code := k; message := msg;
              correlationId := requestId_of h a;
              stack := captureStackTrace engine (length h);
              cause := cause; metadata := md |}]).
Proof.
  intros Ha. apply getContext_Ok in Ha.
  rewrite new_ExceptionBase_unfold, Ha. reflexivity.
Qed.

(** ** The heap only grows *)

Lemma grows_refl h : grows h h.
Proof.
  split; [lia |]. intros x o Hx.
  destruct o; try exact Hx. eexists. exact Hx.
Qed.

Lemma grows_trans h1 h2 h3 : grows h1 h2 -> grows h2 h3 -> grows h1 h3.
Proof.
  intros [Hl12 H12] [Hl23 H23]. split; [lia |].
  intros x o Hx. specialize (H12 x o Hx).
  destruct o as [ | request response rid | | ];
    try (exact (H23 _ _ H12)).
  destruct H12 as [rid' Hx2]. exact (H23 _ _ Hx2).
Qed.

Lemma grows_snoc h o : grows h (h ++ [o]).
Proof.
  split; [rewrite length_app; simpl; lia |].
  intros x o' Hx.
  assert (Hx' : (h ++ [o]) !! x = Some o')
    by (apply lookup_app_l_Some; exact Hx).
  destruct o'; try exact Hx'. eexists. exact Hx'.
Qed.

Lemma grows_assign a id h : grows h (assign_requestId a id h).
Proof.
  split; [rewrite assign_requestId_length; lia |].
  intros x o Hx.
  assert (Hlook : assign_requestId a id h !! x =
                  if decide (x = a) then
                    match o with
                    | ObjAppRequestContext request response _ =>
                        Some (ObjAppRequestContext request response (Some id))
                    | _ => Some o
                    end
                  else Some o).
  { rewrite assign_requestId_lookup. case_decide; subst.
    - rewrite Hx. destruct o; reflexivity.
    - exact Hx. }
  destruct o; case_decide; try exact Hlook; eexists; exact Hlook.
Qed.

(** What a call does to the heap: nothing, one assignment to a
    [requestId], or one new object. *)
Lemma perform_heap (c : Invocation) store h :
  snd (perform engine c store h) = h \/
  (exists a id, c = CallSetRequestId id /\
                snd (perform engine c store h) = assign_requestId a id h) \/
  (exists o, snd (perform engine c store h) = h ++ [o] /\
     match c with
     | CallNewError message => exists stk, o = ObjError message stk [] false
     | CallNewRequestContext request response =>
         o = ObjRequestContext request response
     | CallNewAppRequestContext request response =>
         o = ObjAppRequestContext request response None
     | CallNewException _ _ _ _ => exists e, o = ObjException e
     | _ => False
     end).
Proof.
  destruct c as [message | request response | request response | | id |
                 | k msg cause md | this]; simpl.
  - right; right. eexists. split; [reflexivity |]. eexists. reflexivity.
  - right; right. eexists. split; reflexivity.
  - right; right. eexists. split; reflexivity.
  - left. unfold bind.
    destruct (getContext store h) as [[a | t] h'] eqn:Hg;
      apply getContext_heap in Hg; subst; reflexivity.
  - rewrite setRequestId_unfold.
    destruct (getContext store h) as [[a | t] h'] eqn:Hg;
      apply getContext_heap in Hg; subst; simpl.
    + right; left. exists a, id. split; reflexivity.
    + left. reflexivity.
  - left. unfold bind. rewrite getRequestId_unfold.
    destruct (getContext store h) as [[a | t] h'] eqn:Hg;
      apply getContext_heap in Hg; subst; reflexivity.
  - unfold bind. rewrite new_ExceptionBase_unfold.
    destruct (getContext store h) as [[a | t] h'] eqn:Hg;
      apply getContext_heap in Hg; subst; simpl.
    + right; right. eexists. split; [reflexivity |]. eexists. reflexivity.
    + left. reflexivity.
  - left. unfold call_toJSON, bind, gets, throw. simpl.
    destruct (h !! this) as [[ | | | e]|]; try reflexivity.
    destruct (toJSON engine e store h) as [[r | t] h'] eqn:Hj;
      apply toJSON_heap in Hj; subst; reflexivity.
Qed.

Lemma perform_grows (c : Invocation) store h :
  grows h (snd (perform engine c store h)).
Proof.
  destruct (perform_heap c store h)
    as [-> | [[a [id [_ ->]]] | [o [-> _]]]].
  - apply grows_refl.
  - apply grows_assign.
  - apply grows_snoc.
Qed.

Lemma history_grows calls h : grows h (history engine calls h).
Proof.
  revert h. induction calls as [|[store c] rest IH]; intros h; simpl.
  - apply grows_refl.
  - eapply grows_trans; [apply perform_grows | apply IH].
Qed.

(** An exception, once built, is the same object after any further calls:
    its fields are never written. *)
Lemma history_keeps_exception calls h x e :
  h !! x = Some (ObjException e) ->
  history engine calls h !! x = Some (ObjException e).
Proof.
  intros Hx. destruct (history_grows calls h) as [_ Hkeep].
  exact (Hkeep x _ Hx).
Qed.

Lemma history_keeps_error calls h x msg stk own custom :
  h !! x = Some (ObjError msg stk own custom) ->
  history engine calls h !! x = Some (ObjError msg stk own custom).
Proof.
  intros Hx. destruct (history_grows calls h) as [_ Hkeep].
  exact (Hkeep x _ Hx).
Qed.

(** Only [setRequestId] writes a [requestId]. *)
Lemma perform_keeps_requestId (c : Invocation) store h x o :
  (forall id, c <> CallSetRequestId id) ->
  h !! x = Some o -> snd (perform engine c store h) !! x = Some o.
Proof.
  intros Hc Hx.
  destruct (perform_heap c store h)
    as [-> | [[a [id [Heq _]]] | [o' [-> _]]]].
  - exact Hx.
  - destruct (Hc id Heq).
  - apply lookup_app_l_Some. exact Hx.
Qed.

(** ** Heaps built by the constructors *)

Lemma constructed_nil : constructed [].
Proof. intros c a H. unfold has_request in H. rewrite lookup_nil in H. destruct H. Qed.

Lemma has_request_snoc h o c v :
  has_request (h ++ [o]) c v ->
  (c < length h /\ has_request h c v) \/
  (c = length h /\ has_request [o] 0 v).
Proof.
  unfold has_request. intros H.
  destruct ((h ++ [o]) !! c) as [o'|] eqn:Hc; [| destruct H].
  apply lookup_snoc_Some in Hc. destruct Hc as [[Hlt Hc] | [-> ->]].
  - left. split; [exact Hlt |]. rewrite Hc. exact H.
  - right. split; [reflexivity |]. simpl. exact H.
Qed.

Lemma perform_constructed (c : Invocation) store h :
  constructed h -> call_known h c ->
  constructed (snd (perform engine c store h)).
Proof.
  intros Hwf Hknown.
  destruct (perform_heap c store h)
    as [-> | [[a [id [_ ->]]] | [o [-> Ho]]]].
  - exact Hwf.
  - intros x y Hreq. apply has_request_assign in Hreq. exact (Hwf x y Hreq).
  - intros x y Hreq. apply has_request_snoc in Hreq.
    destruct Hreq as [[_ Hreq] | [-> Hreq]]; [exact (Hwf x y Hreq) |].
    unfold has_request in Hreq. simpl in Hreq.
    destruct c as [message | request response | request response | | |
                   | k msg cause md | this]; try contradiction.
    + destruct Ho as [stk ->]. destruct Hreq.
    + subst o. subst request. destruct Hknown as [Hk _]. exact Hk.
    + subst o. subst request. destruct Hknown as [Hk _]. exact Hk.
    + destruct Ho as [e ->]. destruct Hreq.
Qed.

(** Every heap that the calls of the packages build from the empty heap,
    passing references to objects that exist, is [constructed]. *)
Lemma history_constructed calls h :
  constructed h -> history_known engine calls h ->
  constructed (history engine calls h).
Proof.
  revert h. induction calls as [|[store c] rest IH]; intros h Hwf Hk; simpl.
  - exact Hwf.
  - destruct Hk as [Hc Hrest]. apply IH; [| exact Hrest].
    apply perform_constructed; assumption.
Qed.

End WithEngine.

(** ** Correlation identifier *)

(** C2, counterexample.  With the [AppRequestContext] whose [requestId] is
    ["abc"] stored as the current context, construction throws when its
    [request] is an inbound request, and captures ["xyz"] when its [request]
    is another [AppRequestContext] whose [requestId] is ["xyz"]. *)
Lemma correlationId_not_from_stored_context :
  (requestId_of Scenarios.heap_direct 0 = Some "abc" /\
   new_NotFoundException Scenarios.engine0 None (Some 0) Scenarios.heap_direct
   = (Throw (ThrowError not_an_instance), Scenarios.heap_direct)) /\
  (requestId_of Scenarios.heap_nested 1 = Some "abc" /\
   exists e,
     new_NotFoundException Scenarios.engine0 None (Some 1) Scenarios.heap_nested
     = (Ok 2, Scenarios.heap_nested ++ [ObjException e]) /\
     correlationId e = Some "xyz").
Proof.
  split; [split; reflexivity |].
  split; [reflexivity |].
  eexists. split; reflexivity.
Qed.

(** C2, as the code has it.  An exception constructed while the [request]
    field of the current context is an [AppRequestContext] whose
    [requestId] is [id] has [correlationId = id]; the exception is the same
    object, with the same [correlationId], after any further calls of the
    two packages, whatever they are and under whatever store. *)
Theorem correlationId_captured (engine : Engine) (k msg : string)
    (cause md : Value) (store : option addr) (h : Heap) (a : addr)
    (id : string) :
  ambient_request store h a ->
  requestId_of h a = Some id ->
  exists e,
    new_ExceptionBase engine k msg cause md store h
    = (Ok (length h), h ++ [ObjException e]) /\
    correlationId e = Some id /\
    forall calls,
      history engine calls (h ++ [ObjException e]) !! length h
      = Some (ObjException e).
Proof.
  intros Ha Hid. eexists. split; [| split].
  - apply new_ExceptionBase_Ok. exact Ha.
  - simpl. exact Hid.
  - intros calls. apply history_keeps_exception.
    apply list_lookup_middle. reflexivity.
Qed.

Lemma correlationId_captured_witness :
  exists e,
    new_ExceptionBase Scenarios.engine0 NOT_FOUND "Widget missing"
      VUndefined VUndefined (Some 1) (Scenarios.heap_wrapped (Some "abc"))
    = (Ok 2, Scenarios.heap_wrapped (Some "abc") ++ [ObjException e]) /\
    correlationId e = Some "abc" /\
    forall calls,
      history Scenarios.engine0 calls
        (Scenarios.heap_wrapped (Some "abc") ++ [ObjException e]) !! 2
      = Some (ObjException e).
Proof.
  apply (correlationId_captured Scenarios.engine0 NOT_FOUND "Widget missing"
           VUndefined VUndefined (Some 1) (Scenarios.heap_wrapped (Some "abc"))
           0 "abc").
  - exists 1. repeat split.
  - reflexivity.
Defined.

(** A later [setRequestId] does not reach an exception already built. *)
Example correlationId_survives_setRequestId :
  exists e,
    history Scenarios.engine0
      [(Some 1, CallNewException NOT_FOUND "Widget missing" VUndefined VUndefined);
       (Some 1, CallSetRequestId "other");
       (Some 1, CallGetRequestId)]
      (Scenarios.heap_wrapped (Some "abc")) !! 2 = Some (ObjException e) /\
    correlationId e = Some "abc" /\
    requestId_of
      (history Scenarios.engine0
         [(Some 1, CallNewException NOT_FOUND "Widget missing" VUndefined VUndefined);
          (Some 1, CallSetRequestId "other")]
         (Scenarios.heap_wrapped (Some "abc"))) 0 = Some "other".
Proof. eexists. repeat split. Qed.

(** C3, counterexample.  A context of the right shape is current, its
    [requestId] has not been set: construction succeeds and the exception
    has no [correlationId]. *)
Lemma correlationId_unset_in_active_context :
  getContext (Some 1) (Scenarios.heap_wrapped None)
  = (Ok 0, Scenarios.heap_wrapped None) /\
  exists e,
    new_NotFoundException Scenarios.engine0 None (Some 1)
      (Scenarios.heap_wrapped None)
    = (Ok 2, Scenarios.heap_wrapped None ++ [ObjException e]) /\
    correlationId e = None.
Proof. split; [reflexivity |]. eexists. split; reflexivity. Qed.

(** C3, as the code has it.  With no current context, construction throws
    the plain [Error] of [getContext], which is not an exception of the
    taxonomy, and creates no object.  In general construction either throws
    that [Error], creating no object, or creates one exception, and then a
    context was current, its [request] field was an [AppRequestContext],
    and [correlationId] is what that object's [requestId] held at the time:
    set exactly when [requestId] had been set. *)
Theorem construction_needs_context (engine : Engine) (k msg : string)
    (cause md : Value) (h : Heap) :
  (new_ExceptionBase engine k msg cause md None h
   = (Throw (ThrowError not_an_instance), h) /\
   is_domain_exception (ThrowError not_an_instance) = false) /\
  (forall store r h',
     new_ExceptionBase engine k msg cause md store h = (r, h') ->
     match r with
     | Throw t =>
         t = ThrowError not_an_instance /\ h' = h /\
         forall a, ~ ambient_request store h a
     | Ok x =>
         exists a e,
           ambient_request store h a /\ is_Some store /\
           x = length h /\ h' = h ++ [ObjException e] /\
           correlationId e = requestId_of h a
     end).
Proof.
  split.
  - split; reflexivity.
  - intros store r h'. rewrite new_ExceptionBase_unfold.
    destruct (getContext_cases store h) as [[a [Hok Ha]] | [Hthrow Hnone]].
    + rewrite Hok. intros Heq. inversion Heq; subst.
      exists a. eexists. repeat split; try exact Ha.
      destruct Ha as [c [-> _]]. eexists. reflexivity.
    + rewrite Hthrow. intros Heq. inversion Heq; subst.
      repeat split. exact Hnone.
Qed.

(** ** Serialization *)

(** C6, counterexample.  For [new NotFoundException("Widget missing")] built
    while [getContext] finds [requestId = "r-1"], the [cause] of the
    serialized record is [undefined], not the string ["undefined"]; and for
    an exception built with a plain [Error] as [cause], the record's [cause]
    is not the field's value but a text. *)
Lemma toJSON_cause_counterexample :
  (exists e r,
     new_NotFoundException Scenarios.engine0 (Some "Widget missing") (Some 1)
       (Scenarios.heap_wrapped (Some "r-1"))
     = (Ok 2, Scenarios.heap_wrapped (Some "r-1") ++ [ObjException e]) /\
     toJSON Scenarios.engine0 e (Some 1)
       (Scenarios.heap_wrapped (Some "r-1") ++ [ObjException e])
     = (Ok r, Scenarios.heap_wrapped (Some "r-1") ++ [ObjException e]) /\
     s_cause r = None /\ s_cause r <> Some "undefined") /\
  (exists e r,
     new_ExceptionBase Scenarios.engine0 "CONFLICT" "Already there"
       (VRef 2) VUndefined (Some 1) Scenarios.heap_with_error
     = (Ok 3, Scenarios.heap_with_error ++ [ObjException e]) /\
     cause e = VRef 2 /\
     toJSON Scenarios.engine0 e (Some 1)
       (Scenarios.heap_with_error ++ [ObjException e])
     = (Ok r, Scenarios.heap_with_error ++ [ObjException e]) /\
     s_cause r = Some "{}").
Proof.
  split.
  - eexists. eexists. split; [reflexivity |]. split; [reflexivity |].
    split; [reflexivity | discriminate].
  - eexists. eexists. repeat split.
Qed.

(** C6, as the code has it.  Whenever [toJSON] returns a record, [message],
    [code], [correlationId] and [metadata] are in it unchanged, and its
    [cause] is [JSON.stringify] of the exception's [cause]; it always
    returns one, with [cause] [undefined], when the exception has no cause.
    [new NotFoundException("Widget missing")], built while [getContext]
    finds [requestId = "r-1"], serializes to [message: "Widget missing"],
    [code: "NOT_FOUND"], [correlationId: "r-1"], [cause: undefined],
    [metadata: undefined], and its own [stack]. *)
Theorem toJSON_fields (engine : Engine) :
  (forall e store h r h',
     toJSON engine e store h = (Ok r, h') ->
     h' = h /\ s_message r = message e /\ s_code r = code e /\
     s_correlationId r = correlationId e /\ s_metadata r = metadata e /\
     JSON_stringify engine (cause e) store h = (Ok (s_cause r), h)) /\
  (forall e store h,
     cause e = VUndefined ->
     exists r, toJSON engine e store h = (Ok r, h) /\ s_cause r = None) /\
  (forall store h a,
     ambient_request store h a -> requestId_of h a = Some "r-1" ->
     exists e,
       new_NotFoundException engine (Some "Widget missing") store h
       = (Ok (length h), h ++ [ObjException e]) /\
       toJSON engine e store (h ++ [ObjException e])
       = (Ok {| s_message := "Widget missing";
                s_code := "NOT_FOUND";
                s_correlationId := Some "r-1";
                s_stack := Some (stack e);
                s_cause := None;
                s_metadata := VUndefined |},
          h ++ [ObjException e])).
Proof.
  split; [| split].
  - intros e store h r h'. rewrite toJSON_unfold.
    destruct (JSON_stringify engine (cause e) store h) as [[text | t] h1]
      eqn:Hj; [| discriminate].
    apply JSON_stringify_heap in Hj as Hh. subst h1.
    intros Heq. inversion Heq; subst. simpl. repeat split.
  - intros e store h Hc. rewrite toJSON_unfold, Hc. simpl.
    eexists. split; reflexivity.
  - intros store h a Ha Hid. eexists. split.
    + unfold new_NotFoundException. apply new_ExceptionBase_Ok. exact Ha.
    + rewrite toJSON_unfold. simpl. rewrite Hid. reflexivity.
Qed.

Lemma JSON_members_plain_data (engine : Engine) (store : option addr)
    (h : Heap) (own : list (string * Property)) :
  Forall (fun kp => plain_data (snd kp)) own ->
  exists members, JSON_members engine store h own = Ok members.
Proof.
  induction own as [|[key p] rest IH]; intros Hall; simpl.
  - exists []. reflexivity.
  - inversion Hall as [|kp l Hp Hrest]; subst.
    destruct (IH Hrest) as [members Hm]. rewrite Hm.
    destruct p as [s | z | [ | n | b ]]; simpl in *; try contradiction;
      eexists; reflexivity.
Qed.

(** [JSON.stringify] escapes the quote, the backslash and the control
    characters of a string, and nothing else. *)
Example JSON_quote_escapes :
  JSON_quote ("a" +:+ dquote +:+ "b" +:+ backslash +:+ "c"
              +:+ String (Ascii.ascii_of_nat 10) EmptyString
              +:+ String (Ascii.ascii_of_nat 1) EmptyString +:+ "d/e")
  = dquote +:+ "a" +:+ backslash +:+ dquote +:+ "b" +:+ backslash
    +:+ backslash +:+ "c" +:+ backslash +:+ "n" +:+ backslash +:+ "u0001"
    +:+ "d/e" +:+ dquote.
Proof. reflexivity. Qed.

(** An [Error] with a property that [JSON.stringify] cannot serialize: the
    exception is built, and [toJSON] throws what the engine throws. *)
Example toJSON_throws_on_bigint_property :
  exists e,
    new_ExceptionBase Scenarios.engine_bigint "CONFLICT" "Already there"
      (VRef 2) VUndefined (Some 1) Scenarios.heap_with_bigint_error
    = (Ok 3, Scenarios.heap_with_bigint_error ++ [ObjException e]) /\
    toJSON Scenarios.engine_bigint e (Some 1)
      (Scenarios.heap_with_bigint_error ++ [ObjException e])
    = (Throw (ThrowError "Do not know how to serialize a BigInt"),
       Scenarios.heap_with_bigint_error ++ [ObjException e]).
Proof. eexists. split; reflexivity. Qed.

(** C7.  Take an exception constructed with, as [cause], a plain runtime
    [Error]: an [Error] that is not an [ExceptionBase] and has no [toJSON],
    whatever enumerable properties it has of its own.  At once or after any
    further calls of the two packages, every record that [toJSON] returns
    has as [cause] a string, the text of a JSON object, and not a reference
    to the error object.  [toJSON] returns such a record exactly when each
    property of the error can be serialized, and throws what serializing a
    property throws otherwise; it always returns one when the properties
    are strings and numbers. *)
Theorem toJSON_cause_is_text (engine : Engine) (k msg : string) (md : Value)
    (store : option addr) (h : Heap) (a x : addr) (errmsg errstack : string)
    (own : list (string * Property)) :
  ambient_request store h a ->
  h !! x = Some (ObjError errmsg errstack own false) ->
  exists e,
    new_ExceptionBase engine k msg (VRef x) md store h
    = (Ok (length h), h ++ [ObjException e]) /\
    cause e = VRef x /\
    forall calls store',
      let h' := history engine calls (h ++ [ObjException e]) in
      h' !! length h = Some (ObjException e) /\
      (forall r h'', toJSON engine e store' h' = (Ok r, h'') ->
         exists members, s_cause r = Some (JSON_object members)) /\
      (forall members,
         JSON_members engine store' h' own = Ok members ->
         exists r, toJSON engine e store' h' = (Ok r, h') /\
                   s_cause r = Some (JSON_object members)) /\
      (forall t,
         JSON_members engine store' h' own = Throw t ->
         toJSON engine e store' h' = (Throw t, h')) /\
      (Forall (fun kp => plain_data (snd kp)) own ->
       exists r members,
         toJSON engine e store' h' = (Ok r, h') /\
         s_cause r = Some (JSON_object members)).
Proof.
  intros Ha Hx.
  set (e := {| code := k; message := msg; correlationId := requestId_of h a;
               stack := captureStackTrace engine (length h);
               cause := VRef x; metadata := md |}).
  assert (Hcause : cause e = VRef x) by reflexivity.
  exists e. split; [| split].
  - apply new_ExceptionBase_Ok. exact Ha.
  - exact Hcause.
  - intros calls store'. cbv zeta.
    set (h' := history engine calls (h ++ [ObjException e])).
    assert (Herr : h' !! x = Some (ObjError errmsg errstack own false)).
    { apply history_keeps_error. apply lookup_app_l_Some. exact Hx. }
    assert (Hj : forall s, JSON_stringify engine (VRef x) s h' =
                 match JSON_members engine s h' own with
                 | Ok members => (Ok (Some (JSON_object members)), h')
                 | Throw t => (Throw t, h')
                 end).
    { intros s. unfold JSON_stringify. rewrite Herr. reflexivity. }
    split; [| split; [| split; [| split]]].
    + apply history_keeps_exception. apply list_lookup_middle. reflexivity.
    + intros r h''. rewrite toJSON_unfold, Hcause, Hj.
      destruct (JSON_members engine store' h' own) as [members | t];
        [| discriminate].
      intros Heq. inversion Heq; subst. exists members. reflexivity.
    + intros members Hm. rewrite toJSON_unfold, Hcause, Hj, Hm.
      eexists. split; reflexivity.
    + intros t Hm. rewrite toJSON_unfold, Hcause, Hj, Hm. reflexivity.
    + intros Hplain.
      destruct (JSON_members_plain_data engine store' h' own Hplain)
        as [members Hm].
      rewrite toJSON_unfold, Hcause, Hj, Hm.
      eexists. exists members. split; reflexivity.
Qed.

Lemma toJSON_cause_is_text_witness :
  exists e,
    new_ExceptionBase Scenarios.engine0 "CONFLICT" "Already there"
      (VRef 2) VUndefined (Some 1) Scenarios.heap_with_fs_error
    = (Ok 3, Scenarios.heap_with_fs_error ++ [ObjException e]) /\
    cause e = VRef 2 /\
    exists r,
      toJSON Scenarios.engine0 e None
        (Scenarios.heap_with_fs_error ++ [ObjException e])
      = (Ok r, Scenarios.heap_with_fs_error ++ [ObjException e]) /\
      s_cause r = Some Scenarios.fs_error_text.
Proof.
  destruct (toJSON_cause_is_text Scenarios.engine0 "CONFLICT" "Already there"
              VUndefined (Some 1) Scenarios.heap_with_fs_error 0 2
              "ENOENT: no such file or directory, open 'missing.txt'"
              "Error: ENOENT: no such file or directory, open 'missing.txt'"
              [("errno", PInteger (-2)); ("code", PString "ENOENT");
               ("syscall", PString "open"); ("path", PString "missing.txt")])
    as [e [Hnew [Hcause Hlater]]].
  - exists 1. repeat split.
  - reflexivity.
  - exists e. split; [exact Hnew |]. split; [exact Hcause |].
    destruct (Hlater [] None) as [_ [_ [Hok _]]].
    edestruct Hok as [r [Hr Hc]]; [vm_compute; reflexivity |].
    exists r. split; [exact Hr |]. rewrite Hc. reflexivity.
Defined.

(** ** The window before [setRequestId] *)

(** C9.  A new [AppRequestContext] has no [requestId], and no call other
    than [setRequestId] gives it one.  While it is the [request] field of
    the current context and [requestId] is unset, [getRequestId] returns
    [undefined] (it does not throw) and an exception constructed then has
    [correlationId = undefined]; after [setRequestId(id)], [getRequestId]
    returns [id]. *)
Theorem requestId_unset_until_set (engine : Engine) (store : option addr)
    (h : Heap) (a : addr) (request response : Value) :
  ambient_request store h a ->
  h !! a = Some (ObjAppRequestContext request response None) ->
  (forall rq rs s0 h0,
     new_AppRequestContext rq rs s0 h0
     = (Ok (length h0), h0 ++ [ObjAppRequestContext rq rs None])) /\
  (forall c s0, (forall id, c <> CallSetRequestId id) ->
     snd (perform engine c s0 h) !! a
     = Some (ObjAppRequestContext request response None)) /\
  getRequestId store h = (Ok None, h) /\
  (forall k msg cause md, exists e,
     new_ExceptionBase engine k msg cause md store h
     = (Ok (length h), h ++ [ObjException e]) /\
     correlationId e = None) /\
  (forall id, exists h',
     setRequestId id store h = (Ok tt, h') /\
     getRequestId store h' = (Ok (Some id), h')).
Proof.
  intros Ha Hcell.
  assert (Hrid : requestId_of h a = None)
    by (unfold requestId_of; rewrite Hcell; reflexivity).
  assert (Hok : getContext store h = (Ok a, h))
    by (apply getContext_Ok; exact Ha).
  repeat split.
  - intros c s0 Hc. apply perform_keeps_requestId; assumption.
  - rewrite getRequestId_unfold, Hok, Hrid. reflexivity.
  - intros k msg cause md. eexists. split.
    + apply new_ExceptionBase_Ok. exact Ha.
    + simpl. exact Hrid.
  - intros id. exists (assign_requestId a id h). split.
    + rewrite setRequestId_unfold, Hok. reflexivity.
    + assert (Ha' : ambient_request store (assign_requestId a id h) a)
        by (apply ambient_request_assign; exact Ha).
      apply getContext_Ok in Ha'.
      rewrite getRequestId_unfold, Ha'.
      rewrite requestId_of_assign; [reflexivity |].
      destruct Ha as [_ [_ [_ Happ]]]. exact Happ.
Qed.

Lemma requestId_unset_until_set_witness :
  getRequestId (Some 1) (Scenarios.heap_wrapped None)
  = (Ok None, Scenarios.heap_wrapped None) /\
  (exists e,
     new_ExceptionBase Scenarios.engine0 NOT_FOUND "Not found"
       VUndefined VUndefined (Some 1) (Scenarios.heap_wrapped None)
     = (Ok 2, Scenarios.heap_wrapped None ++ [ObjException e]) /\
     correlationId e = None) /\
  (exists h',
     setRequestId "r-1" (Some 1) (Scenarios.heap_wrapped None) = (Ok tt, h') /\
     getRequestId (Some 1) h' = (Ok (Some "r-1"), h')).
Proof.
  assert (Ha : ambient_request (Some 1) (Scenarios.heap_wrapped None) 0)
    by (exists 1; repeat split).
  pose proof (requestId_unset_until_set Scenarios.engine0 (Some 1)
                (Scenarios.heap_wrapped None) 0 (VForeign 1) (VForeign 2)
                Ha eq_refl) as [_ [_ [Hget [Hnew Hset]]]].
  split; [exact Hget |]. split.
  - exact (Hnew NOT_FOUND "Not found" VUndefined VUndefined).
  - exact (Hset "r-1").
Defined.

End ExceptionFacts.

(* ===================================================================== *)
(** * Properties of the scoped context store *)
(* ===================================================================== *)

Module AsyncFacts.
Import Runtime Context Async.

Section Scoped.
Variable E : nat -> option addr.








End Scoped.

(** An idle thread is outside every scope: the store is empty at the start
    and after each turn. *)
Lemma idle_store_empty (h : Heap) (main : Prog) (schedule : list nat) :
  store (loop schedule (start h main)) = None.
Proof.
  assert (Hres : forall i st, store st = None -> store (resume i st) = None).
  { intros i st Hst. unfold resume.
    destruct (suspended st !! i) as [[captured k]|]; [reflexivity | exact Hst]. }
  assert (Hloop : forall sch st, store st = None -> store (loop sch st) = None).
  { induction sch as [|i rest IH]; intros st Hst; simpl; [exact Hst |].
    apply IH. apply Hres. exact Hst. }
  apply Hloop. reflexivity.
Qed.





(** The two packages together: each of two interleaved requests builds its
    exception after a suspension, the second request first, and each
    exception carries the id of its own request. *)
Example exceptions_carry_their_request :
  map (fun o => match o with
                | ObjException e => correlationId e
                | _ => None
                end)
    (drop 4 (heap (loop [1; 0]
                     (start Scenarios.heap_two_requests
                        Scenarios.two_failing_requests))))
  = [Some "r-2"; Some "r-1"].
Proof. reflexivity. Qed.



End AsyncFacts.

(* ===================================================================== *)
(** * More on the emptiness guard *)
(* ===================================================================== *)

Module GuardMore.
Import Guard Shapes GuardFacts.

Lemma forallb_Forall_true {A} (f : A -> bool) (l : list A) :
  forallb f l = true <-> Forall (fun x => f x = true) l.
Proof.
  induction l as [|x t IH]; simpl.
  - split; [constructor | reflexivity].
  - rewrite andb_true_iff, IH. split.
    + intros [Hx Ht]. constructor; assumption.
    + intros H. inversion H. auto.
Qed.

(** X1.  A string is empty exactly when each of its code units is white
    space or a line terminator: [trim] removes nothing else, and nothing
    from the inside of the string. *)
Theorem isEmpty_string_blank (s : jsstring) :
  isEmpty (VString s) = forallb isWhiteSpace s.
Proof.
  apply Bool.eq_iff_eq_true. simpl.
  rewrite Nat.eqb_eq, trim_length_zero, forallb_Forall_true. reflexivity.
Qed.

Lemma every_app {A} (f : A -> bool) (a b : list (option A)) :
  every f (a ++ b) = every f a && every f b.
Proof.
  induction a as [|[x|] t IH]; simpl.
  - reflexivity.
  - rewrite IH. apply andb_assoc.
  - exact IH.
Qed.

(** The test [value.length === 0] decides nothing that [value.every(isEmpty)]
    does not. *)
Lemma isEmpty_array_every (elems : list (option JsValue)) :
  isEmpty (VArray elems) = every isEmpty elems.
Proof. destruct elems; reflexivity. Qed.

(** X2.  An array made of two arrays put end to end is empty exactly when
    both are. *)
Theorem isEmpty_array_app (a b : list (option JsValue)) :
  isEmpty (VArray (a ++ b)) = isEmpty (VArray a) && isEmpty (VArray b).
Proof. rewrite !isEmpty_array_every. apply every_app. Qed.

(** X3.  Wrapping a value in one-element arrays, any number of times, does
    not change whether it is empty. *)
Theorem isEmpty_wrap (n : nat) (v : JsValue) : isEmpty (wrap n v) = isEmpty v.
Proof.
  induction n as [|m IH]; simpl.
  - reflexivity.
  - rewrite IH. apply andb_true_r.
Qed.

(** X4.  Whether an array is empty depends only on which values occur in
    it: if every value of [small] occurs in [big] and [big] is empty, so is
    [small].  Order, repetition and holes do not matter. *)
Theorem isEmpty_array_elements (big small : list (option JsValue)) :
  (forall x, Some x ∈ small -> Some x ∈ big) ->
  isEmpty (VArray big) = true ->
  isEmpty (VArray small) = true.
Proof.
  rewrite !isEmpty_array_every, !every_true.
  intros Hsub Hbig x Hx. apply Hbig, Hsub, Hx.
Qed.

Lemma isEmpty_array_elements_witness :
  isEmpty (VArray [Some (VString (js " ")); None; Some VNull;
                   Some (VString (js " "))]) = true.
Proof.
  apply (isEmpty_array_elements
           [Some VNull; Some (VArray []); Some (VString (js " "))]).
  - intros x Hx.
    apply elem_of_cons in Hx as [Hx | Hx];
      [inversion Hx; subst; repeat constructor |].
    apply elem_of_cons in Hx as [Hx | Hx]; [discriminate |].
    apply elem_of_cons in Hx as [Hx | Hx];
      [inversion Hx; subst; repeat constructor |].
    apply elem_of_cons in Hx as [Hx | Hx];
      [inversion Hx; subst; repeat constructor |].
    inversion Hx.
  - reflexivity.
Defined.

End GuardMore.

(* ===================================================================== *)
(** * More on RequestContextService *)
(* ===================================================================== *)

Module ContextMore.
Import Runtime Context ContextFacts.

(** X5.  Without a current context whose [request] is an
    [AppRequestContext], [setRequestId] and [getRequestId] throw the
    [Error] of [getContext] and write nothing: no object gets a
    [requestId] by accident. *)
Theorem setRequestId_needs_context (id : string) (store : option addr)
    (h : Heap) :
  (forall a, ~ ambient_request store h a) ->
  setRequestId id store h = (Throw (ThrowError not_an_instance), h) /\
  getRequestId store h = (Throw (ThrowError not_an_instance), h).
Proof.
  intros Hnone.
  destruct (getContext_cases store h) as [[a [_ Ha]] | [Hthrow _]];
    [destruct (Hnone a Ha) |].
  rewrite setRequestId_unfold, getRequestId_unfold, Hthrow. split; reflexivity.
Qed.

Lemma setRequestId_needs_context_witness :
  setRequestId "new" (Some 0) Scenarios.heap_direct
  = (Throw (ThrowError not_an_instance), Scenarios.heap_direct) /\
  getRequestId (Some 0) Scenarios.heap_direct
  = (Throw (ThrowError not_an_instance), Scenarios.heap_direct).
Proof.
  apply (setRequestId_needs_context "new" (Some 0) Scenarios.heap_direct).
  intros a [c [Hc [Hreq _]]]. inversion Hc; subst c. inversion Hreq.
Defined.

Lemma assign_requestId_twice a id1 id2 h :
  assign_requestId a id2 (assign_requestId a id1 h) = assign_requestId a id2 h.
Proof.
  apply list_eq. intros x. rewrite !assign_requestId_lookup.
  case_decide; [| reflexivity].
  rewrite decide_True by reflexivity.
  destruct (h !! a) as [[ | | | ]|]; reflexivity.
Qed.

(** X6.  [setRequestId] can be called again: the second id replaces the
    first, [getRequestId] then returns the second, and the heap is the one
    a single call with the second id would have left. *)
Theorem setRequestId_overwrites (id1 id2 : string) (store : option addr)
    (h : Heap) (a : addr) :
  ambient_request store h a ->
  exists h1 h2,
    setRequestId id1 store h = (Ok tt, h1) /\
    setRequestId id2 store h1 = (Ok tt, h2) /\
    getRequestId store h2 = (Ok (Some id2), h2) /\
    setRequestId id2 store h = (Ok tt, h2).
Proof.
  intros Ha.
  assert (Ha1 : ambient_request store (assign_requestId a id1 h) a)
    by (apply ambient_request_assign; exact Ha).
  assert (Ha2 : ambient_request store (assign_requestId a id2 h) a)
    by (apply ambient_request_assign; exact Ha).
  apply getContext_Ok in Ha as Hok.
  apply getContext_Ok in Ha1 as Hok1.
  apply getContext_Ok in Ha2 as Hok2.
  exists (assign_requestId a id1 h), (assign_requestId a id2 h).
  repeat split.
  - rewrite setRequestId_unfold, Hok. reflexivity.
  - rewrite setRequestId_unfold, Hok1, assign_requestId_twice. reflexivity.
  - rewrite getRequestId_unfold, Hok2, requestId_of_assign; [reflexivity |].
    destruct Ha as [_ [_ [_ Happ]]]. exact Happ.
  - rewrite setRequestId_unfold, Hok. reflexivity.
Qed.

Lemma setRequestId_overwrites_witness :
  exists h1 h2,
    setRequestId "first" (Some 1) (Scenarios.heap_wrapped None) = (Ok tt, h1) /\
    setRequestId "second" (Some 1) h1 = (Ok tt, h2) /\
    getRequestId (Some 1) h2 = (Ok (Some "second"), h2) /\
    setRequestId "second" (Some 1) (Scenarios.heap_wrapped None) = (Ok tt, h2).
Proof.
  apply (setRequestId_overwrites "first" "second" (Some 1)
           (Scenarios.heap_wrapped None) 0).
  exists 1. repeat split.
Defined.

(** X7.  [setRequestId] writes one field of one object: the [requestId] of
    the [AppRequestContext] that [getContext] finds.  No object is added,
    every other object is untouched, that object keeps its [request] and
    [response], and a request whose [AppRequestContext] is another object
    reads the id it had. *)
Theorem setRequestId_writes_one_field (id : string) (store : option addr)
    (h : Heap) (a : addr) :
  ambient_request store h a ->
  exists h',
    setRequestId id store h = (Ok tt, h') /\
    length h' = length h /\
    (forall x, x <> a -> h' !! x = h !! x) /\
    (exists request response old,
       h !! a = Some (ObjAppRequestContext request response old) /\
       h' !! a = Some (ObjAppRequestContext request response (Some id))) /\
    (forall store2 a2,
       ambient_request store2 h a2 -> a2 <> a ->
       getRequestId store2 h = (Ok (requestId_of h a2), h) /\
       getRequestId store2 h' = (Ok (requestId_of h a2), h')).
Proof.
  intros Ha. apply getContext_Ok in Ha as Hok.
  exists (assign_requestId a id h). split; [| split; [| split; [| split]]].
  - rewrite setRequestId_unfold, Hok. reflexivity.
  - apply assign_requestId_length.
  - intros x Hx. rewrite assign_requestId_lookup.
    rewrite decide_False by exact Hx. reflexivity.
  - destruct Ha as [_ [_ [_ Happ]]]. unfold is_AppRequestContext in Happ.
    destruct (h !! a) as [[ | request response old | | ]|] eqn:Hcell;
      try contradiction.
    exists request, response, old. split; [reflexivity |].
    rewrite assign_requestId_lookup, decide_True by reflexivity.
    rewrite Hcell. reflexivity.
  - intros store2 a2 Ha2 Hne.
    assert (Ha2' : ambient_request store2 (assign_requestId a id h) a2)
      by (apply ambient_request_assign; exact Ha2).
    apply getContext_Ok in Ha2. apply getContext_Ok in Ha2'.
    rewrite !getRequestId_unfold, Ha2, Ha2'. split; [reflexivity |].
    unfold requestId_of at 1. rewrite assign_requestId_lookup.
    rewrite decide_False by exact Hne. reflexivity.
Qed.

Lemma setRequestId_writes_one_field_witness :
  exists h',
    setRequestId "r-9" (Some 3) Scenarios.heap_two_requests = (Ok tt, h') /\
    getRequestId (Some 3) h' = (Ok (Some "r-9"), h') /\
    getRequestId (Some 1) h' = (Ok (Some "r-1"), h').
Proof.
  destruct (setRequestId_writes_one_field "r-9" (Some 3)
              Scenarios.heap_two_requests 2)
    as [h' [Hset [_ [_ [_ Hother]]]]].
  { exists 3. repeat split. }
  exists h'. split; [exact Hset |]. split.
  - inversion Hset. reflexivity.
  - apply (Hother (Some 1) 0); [exists 1; repeat split | lia].
Defined.

(** X8.  The way to install a context that [getContext] accepts: build an
    [AppRequestContext], then a [RequestContext] whose [request] is that
    object, and enter the second.  [getContext] then returns the first,
    its [requestId] reads [undefined] whatever ids older contexts hold, and
    no older object is changed. *)
Theorem fresh_context_has_no_requestId (h : Heap)
    (request response response' : Value) (s0 s1 : option addr) :
  exists a c h1 h2,
    new_AppRequestContext request response s0 h = (Ok a, h1) /\
    new_RequestContext (VRef a) response' s1 h1 = (Ok c, h2) /\
    getContext (Some c) h2 = (Ok a, h2) /\
    getRequestId (Some c) h2 = (Ok None, h2) /\
    (forall x o, h !! x = Some o -> h2 !! x = Some o).
Proof.
  set (app := ObjAppRequestContext request response None).
  set (ctx := ObjRequestContext (VRef (length h)) response').
  exists (length h), (length (h ++ [app])), (h ++ [app]),
    ((h ++ [app]) ++ [ctx]).
  assert (Happ : ((h ++ [app]) ++ [ctx]) !! length h = Some app).
  { apply lookup_app_l_Some. apply list_lookup_middle. reflexivity. }
  assert (Hctx : ((h ++ [app]) ++ [ctx]) !! length (h ++ [app]) = Some ctx).
  { apply list_lookup_middle. reflexivity. }
  assert (Hamb : ambient_request (Some (length (h ++ [app])))
                   ((h ++ [app]) ++ [ctx]) (length h)).
  { exists (length (h ++ [app])). split; [reflexivity |]. split.
    - unfold has_request. rewrite Hctx. reflexivity.
    - unfold is_AppRequestContext. rewrite Happ. exact I. }
  apply getContext_Ok in Hamb as Hok.
  split; [reflexivity |]. split; [reflexivity |]. split; [exact Hok |]. split.
  - rewrite getRequestId_unfold, Hok. unfold requestId_of. rewrite Happ.
    reflexivity.
  - intros x o Hx. apply lookup_app_l_Some, lookup_app_l_Some. exact Hx.
Qed.

End ContextMore.

(* ===================================================================== *)
(** * More on the exception taxonomy *)
(* ===================================================================== *)

Module ExceptionMore.
Import Runtime Context Exceptions ContextFacts ExceptionFacts.

Lemma grows_has_request h h' c v :
  grows h h' -> has_request h c v -> has_request h' c v.
Proof.
  intros [_ Hkeep] Hreq. unfold has_request in *.
  destruct (h !! c) as [[request response | request response rid | | ]|]
    eqn:Hc; try contradiction.
  - rewrite (Hkeep c _ Hc). exact Hreq.
  - destruct (Hkeep c _ Hc) as [rid' ->]. exact Hreq.
Qed.

Lemma grows_is_AppRequestContext h h' a :
  grows h h' -> is_AppRequestContext h a -> is_AppRequestContext h' a.
Proof.
  intros [_ Hkeep] Ha. unfold is_AppRequestContext in *.
  destruct (h !! a) as [[ | request response rid | | ]|] eqn:Hc;
    try contradiction.
  destruct (Hkeep a _ Hc) as [rid' ->]. exact I.
Qed.

Lemma grows_ambient_request store h h' a :
  grows h h' -> ambient_request store h a -> ambient_request store h' a.
Proof.
  intros Hg [c [Hs [Hreq Ha]]]. exists c. split; [exact Hs |]. split.
  - eapply grows_has_request; eassumption.
  - eapply grows_is_AppRequestContext; eassumption.
Qed.

(** X9.  Once [getContext] finds an [AppRequestContext] under a store, it
    finds the same object under that store after any further calls of the
    two packages: [request] fields are never written, objects never
    removed. *)
Theorem installed_context_stays (engine : Engine) (store : option addr)
    (h : Heap) (a : addr) (calls : list (option addr * Invocation)) :
  getContext store h = (Ok a, h) ->
  getContext store (history engine calls h) = (Ok a, history engine calls h).
Proof.
  intros Hok. apply getContext_Ok. apply getContext_Ok in Hok.
  eapply grows_ambient_request; [apply history_grows | exact Hok].
Qed.

Lemma installed_context_stays_witness :
  getContext (Some 1)
    (history Scenarios.engine0
       [(Some 1, CallSetRequestId "r-1");
        (None, CallNewAppRequestContext (VRef 1) VUndefined);
        (Some 1, CallNewException NOT_FOUND "gone" VUndefined VUndefined)]
       (Scenarios.heap_wrapped None))
  = (Ok 0,
     history Scenarios.engine0
       [(Some 1, CallSetRequestId "r-1");
        (None, CallNewAppRequestContext (VRef 1) VUndefined);
        (Some 1, CallNewException NOT_FOUND "gone" VUndefined VUndefined)]
       (Scenarios.heap_wrapped None)).
Proof.
  apply (installed_context_stays Scenarios.engine0 (Some 1)
           (Scenarios.heap_wrapped None) 0).
  reflexivity.
Defined.

Lemma requestId_of_snoc h o a :
  requestId_of [o] 0 = None -> requestId_of (h ++ [o]) a = requestId_of h a.
Proof.
  intros Ho. unfold requestId_of in *.
  destruct (decide (a < length h)) as [Hlt | Hge].
  - rewrite lookup_app_l by exact Hlt. reflexivity.
  - rewrite (lookup_ge_None_2 h a) by lia.
    destruct (decide (a = length h)) as [-> | Hne].
    + rewrite list_lookup_middle by reflexivity. exact Ho.
    + rewrite lookup_ge_None_2; [reflexivity |].
      rewrite length_app. simpl. lia.
Qed.

(** X10.  The only call that changes the [requestId] of any object is
    [setRequestId], made under a store for which [getContext] finds that
    object; the new value is the id passed. *)
Theorem requestId_changes_only_by_setRequestId (engine : Engine)
    (c : Invocation) (store : option addr) (h : Heap) (a : addr) :
  requestId_of (snd (perform engine c store h)) a <> requestId_of h a ->
  exists id,
    c = CallSetRequestId id /\
    getContext store h = (Ok a, h) /\
    requestId_of (snd (perform engine c store h)) a = Some id.
Proof.
  intros Hchg.
  destruct (perform_heap engine c store h)
    as [Hsame | [[a0 [id [-> Hset]]] | [o [Happ Ho]]]].
  - rewrite Hsame in Hchg. destruct (Hchg eq_refl).
  - simpl in *. rewrite setRequestId_unfold in *.
    destruct (getContext_cases store h) as [[b [Hok Hb]] | [Hthrow _]].
    + rewrite Hok in *. simpl in *.
      destruct (decide (a = b)) as [-> | Hne].
      * exists id. split; [reflexivity |]. split; [reflexivity |].
        apply requestId_of_assign. destruct Hb as [_ [_ [_ Happ]]]. exact Happ.
      * exfalso. apply Hchg. unfold requestId_of.
        rewrite assign_requestId_lookup, decide_False by exact Hne.
        reflexivity.
    + rewrite Hthrow in Hchg. destruct (Hchg eq_refl).
  - exfalso. apply Hchg. rewrite Happ. apply requestId_of_snoc.
    destruct c; try contradiction;
      [destruct Ho as [stk ->] | subst o | subst o | destruct Ho as [e ->]];
      reflexivity.
Qed.

Lemma requestId_changes_only_by_setRequestId_witness :
  exists id,
    CallSetRequestId "r-1" = CallSetRequestId id /\
    getContext (Some 1) (Scenarios.heap_wrapped None)
    = (Ok 0, Scenarios.heap_wrapped None) /\
    requestId_of
      (snd (perform Scenarios.engine0 (CallSetRequestId "r-1") (Some 1)
              (Scenarios.heap_wrapped None))) 0 = Some id.
Proof.
  apply (requestId_changes_only_by_setRequestId Scenarios.engine0
           (CallSetRequestId "r-1") (Some 1) (Scenarios.heap_wrapped None) 0).
  discriminate.
Defined.

(** X12.  [NotFoundException] and [InternalServerErrorException] take a
    message only: when built, the message is the one given or else the
    default of the class, and there is never a cause or metadata.  Such
    an exception serializes under every store and in every heap, with
    [cause] and [metadata] [undefined], whatever the engine does on other
    values. *)
Theorem message_only_kinds (engine : Engine) (INTERNAL_SERVER_ERROR : string)
    (msg : option string) (store : option addr) (h : Heap) (a : addr) :
  ambient_request store h a ->
  (exists e,
     new_NotFoundException engine msg store h
     = (Ok (length h), h ++ [ObjException e]) /\
     message e = default_to "Not found" msg /\ code e = NOT_FOUND /\
     cause e = VUndefined /\ metadata e = VUndefined /\
     forall store' h', exists r,
       toJSON engine e store' h' = (Ok r, h') /\
       s_cause r = None /\ s_metadata r = VUndefined) /\
  (exists e,
     new_InternalServerErrorException engine INTERNAL_SERVER_ERROR msg store h
     = (Ok (length h), h ++ [ObjException e]) /\
     message e = default_to "Internal server error" msg /\
     code e = INTERNAL_SERVER_ERROR /\
     cause e = VUndefined /\ metadata e = VUndefined /\
     forall store' h', exists r,
       toJSON engine e store' h' = (Ok r, h') /\
       s_cause r = None /\ s_metadata r = VUndefined).
Proof.
  intros Ha. split; eexists;
    (split; [apply new_ExceptionBase_Ok; exact Ha |]);
    repeat (split; [reflexivity |]);
    intros store' h'; eexists; rewrite toJSON_unfold; simpl;
    repeat split.
Qed.

Lemma message_only_kinds_witness :
  exists e,
    new_NotFoundException Scenarios.engine0 None (Some 1)
      (Scenarios.heap_wrapped (Some "r-1"))
    = (Ok 2, Scenarios.heap_wrapped (Some "r-1") ++ [ObjException e]) /\
    message e = "Not found" /\ code e = NOT_FOUND /\
    cause e = VUndefined /\ metadata e = VUndefined /\
    forall store' h', exists r,
      toJSON Scenarios.engine0 e store' h' = (Ok r, h') /\
      s_cause r = None /\ s_metadata r = VUndefined.
Proof.
  apply (message_only_kinds Scenarios.engine0 "INTERNAL_SERVER_ERROR" None
           (Some 1) (Scenarios.heap_wrapped (Some "r-1")) 0).
  exists 1. repeat split.
Defined.

(** X13.  No sequence of calls removes an object, moves it, or writes a
    field of it other than the [requestId] of an [AppRequestContext]:
    errors and exceptions stay as built, contexts keep their [request] and
    [response]. *)
Theorem calls_keep_objects (engine : Engine)
    (calls : list (option addr * Invocation)) (h : Heap) :
  length h <= length (history engine calls h) /\
  forall x o, h !! x = Some o ->
    match o with
    | ObjAppRequestContext request response _ =>
        exists requestId,
          history engine calls h !! x
          = Some (ObjAppRequestContext request response requestId)
    | _ => history engine calls h !! x = Some o
    end.
Proof. exact (history_grows engine calls h). Qed.

(** X14.  In a heap that calls of the two packages built from nothing,
    passing only references to objects that existed, [getContext] never
    returns the stored context itself: entering an [AppRequestContext]
    does not make [getContext] return it. *)
Theorem getContext_never_returns_store (engine : Engine)
    (calls : list (option addr * Invocation)) (store : option addr)
    (a : addr) :
  history_known engine calls [] ->
  getContext store (history engine calls [])
  = (Ok a, history engine calls []) ->
  store <> Some a.
Proof.
  intros Hknown Hok Hstore.
  apply getContext_Ok in Hok. destruct Hok as [c [Hs [Hreq _]]].
  assert (Hwf : constructed (history engine calls []))
    by (apply history_constructed; [apply constructed_nil | exact Hknown]).
  apply Hwf in Hreq. assert (c = a) by congruence. lia.
Qed.

Lemma getContext_never_returns_store_witness :
  getContext (Some 1)
    (history Scenarios.engine0
       [(None, CallNewAppRequestContext (VForeign 1) (VForeign 2));
        (None, CallNewRequestContext (VRef 0) (VForeign 2))] [])
  = (Ok 0, Scenarios.heap_wrapped None) /\
  Some 1 <> Some 0.
Proof.
  split; [reflexivity |].
  apply (getContext_never_returns_store Scenarios.engine0
           [(None, CallNewAppRequestContext (VForeign 1) (VForeign 2));
            (None, CallNewRequestContext (VRef 0) (VForeign 2))]
           (Some 1) 0).
  - simpl. repeat split. lia.
  - reflexivity.
Defined.

(** X15.  [correlationId] is a copy taken at construction: after
    [setRequestId] replaces the request id, an exception built before
    still carries the old id and one built after carries the new one. *)
Theorem correlationId_is_a_snapshot (engine : Engine) (k msg : string)
    (cause md : Value) (store : option addr) (h : Heap) (a : addr)
    (old new : string) :
  ambient_request store h a ->
  requestId_of h a = Some old ->
  exists e1 e2 h2,
    new_ExceptionBase engine k msg cause md store h
    = (Ok (length h), h ++ [ObjException e1]) /\
    setRequestId new store (h ++ [ObjException e1]) = (Ok tt, h2) /\
    new_ExceptionBase engine k msg cause md store h2
    = (Ok (S (length h)), h2 ++ [ObjException e2]) /\
    (h2 ++ [ObjException e2]) !! length h = Some (ObjException e1) /\
    correlationId e1 = Some old /\
    correlationId e2 = Some new.
Proof.
  intros Ha Hold.
  set (e1 := {| code := k; message := msg; correlationId := requestId_of h a;
                stack := captureStackTrace engine (length h);
                cause := cause; metadata := md |}).
  set (h1 := h ++ [ObjException e1]).
  set (h2 := assign_requestId a new h1).
  assert (Ha1 : ambient_request store h1 a)
    by (eapply grows_ambient_request; [apply grows_snoc | exact Ha]).
  assert (Ha2 : ambient_request store h2 a)
    by (apply ambient_request_assign; exact Ha1).
  assert (Hlen : length h2 = S (length h)).
  { unfold h2, h1. rewrite assign_requestId_length, length_app. simpl. lia. }
  exists e1. eexists. exists h2. split; [| split; [| split; [| split; [| split]]]].
  - apply new_ExceptionBase_Ok. exact Ha.
  - rewrite setRequestId_unfold.
    apply getContext_Ok in Ha1. fold h1. rewrite Ha1. reflexivity.
  - rewrite <- Hlen. apply new_ExceptionBase_Ok. exact Ha2.
  - apply lookup_app_l_Some. unfold h2.
    rewrite assign_requestId_lookup.
    assert (Hcell : h1 !! length h = Some (ObjException e1))
      by (apply list_lookup_middle; reflexivity).
    case_decide as Heq; [| exact Hcell].
    destruct Ha1 as [_ [_ [_ Happ]]]. unfold is_AppRequestContext in Happ.
    rewrite <- Heq, Hcell in Happ. destruct Happ.
  - exact Hold.
  - simpl. apply requestId_of_assign.
    destruct Ha1 as [_ [_ [_ Happ]]]. exact Happ.
Qed.

Lemma correlationId_is_a_snapshot_witness :
  exists e1 e2 h2,
    new_ExceptionBase Scenarios.engine0 NOT_FOUND "gone" VUndefined VUndefined
      (Some 1) (Scenarios.heap_wrapped (Some "old"))
    = (Ok 2, Scenarios.heap_wrapped (Some "old") ++ [ObjException e1]) /\
    setRequestId "new" (Some 1)
      (Scenarios.heap_wrapped (Some "old") ++ [ObjException e1])
    = (Ok tt, h2) /\
    new_ExceptionBase Scenarios.engine0 NOT_FOUND "gone" VUndefined VUndefined
      (Some 1) h2
    = (Ok 3, h2 ++ [ObjException e2]) /\
    (h2 ++ [ObjException e2]) !! 2 = Some (ObjException e1) /\
    correlationId e1 = Some "old" /\
    correlationId e2 = Some "new".
Proof.
  apply (correlationId_is_a_snapshot Scenarios.engine0 NOT_FOUND "gone"
           VUndefined VUndefined (Some 1)
           (Scenarios.heap_wrapped (Some "old")) 0 "old" "new").
  - exists 1. repeat split.
  - reflexivity.
Defined.

End ExceptionMore.
